(** * rqt_bag: the [Rosbag2] bag abstraction (src/rqt_bag/rosbag2.py)

    A shallow embedding of the [Rosbag2] class: the handle built by
    [__init__], the metadata accessors, the topic catalog
    ([topic_metadata_map]) and the three retrieval methods, which run a
    textual SQL query against the bag's sqlite3 file.

    Conventions.
    - Integers (timestamps, sizes, row ids) are Python / SQLite integers,
      modelled as [Z].
    - A Python [dict] is an association list in insertion order with unique
      keys ([Dict]); [d[k] = v] on a present key replaces the value in place.
    - A method runs in the monad [M]: it emits log records (the calls on
      [self._logger] and [print]) and either returns a value or raises.
    - An attribute that [__init__] did not set is [None] in the record and
      reading it raises [AttributeError].
    - rosbag2_py and sqlite3 are outside the repository.  [World] holds what
      they answer: the metadata a uri opens to, the tables of the sqlite3
      file at a path ([None] for a path that holds no readable rosbag2
      database: connecting or querying then raises), and the answer of
      sqlite3 to a query whose pasted topic name is not plain.
    - The SQL text handed to sqlite3 is [base_query + sql_query].  The part
      the code writes itself is represented by its parsed form ([SqlQuery])
      and evaluated by [select_rows] / [fetchall]: inner join of [messages]
      with [topics], [WHERE], [ORDER BY messages.timestamp], [LIMIT].  The
      topic name is pasted into that text between double quotes.  For a
      plain ROS name ([plain_topic_name]: a leading slash, then letters,
      digits, underscores and slashes) the quoted text is one token that
      names no column, which SQLite reads as the string itself, so the
      filter is equality with the name.  For any other name (one that is a
      column of the join, or that holds a double quote and so changes the
      statement) the model commits to nothing: the answer is the one the
      world gives ([sqlite3_pasted]), rows or an error.
    - [ORDER BY messages.timestamp] is a scan of the timestamp index:
      ascending it keeps rows of equal timestamp in stored order,
      descending it yields them in reverse.  No property below depends on
      the order among equal timestamps. *)

From Stdlib Require Import ZArith List String Ascii Bool Lia Permutation Sorted.
Import ListNotations.
Open Scope string_scope.
Open Scope list_scope.
Open Scope Z_scope.

Set Implicit Arguments.

(* ------------------------------------------------------------------ *)
(** ** Exceptions, log records and the method monad *)

Inductive Exception : Type :=
| AttributeError (attribute : string)
| KeyError (key : string)
| IndexError
| RuntimeError
| Sqlite3Error.

Inductive Result (A : Type) : Type :=
| Ok (value : A)
| Raise (e : Exception).

Arguments Ok {A} value.
Arguments Raise {A} e.

Inductive LogRecord : Type :=
| Info (msg : string)
| Warn (msg : string)
| Print (msg : string) (value : Z).

Definition M (A : Type) : Type := (list LogRecord * Result A)%type.

Definition ret {A} (a : A) : M A := ([], Ok a).

Definition raise {A} (e : Exception) : M A := ([], Raise e).

Definition bind {A B} (m : M A) (k : A -> M B) : M B :=
  match m with
  | (out, Ok a) => let (out', r) := k a in (out ++ out', r)
  | (out, Raise e) => (out, Raise e)
  end.

Notation "x <- m ;; k" := (bind m (fun x => k))
  (at level 61, m at next level, right associativity).
Notation "m ;;; k" := (bind m (fun _ => k))
  (at level 61, right associativity).

Definition emit (r : LogRecord) : M unit := ([r], Ok tt).

(** What a call returned, and what it logged. *)
Definition returns {A} (m : M A) (a : A) : Prop := snd m = Ok a.
Definition raises {A} (m : M A) (e : Exception) : Prop := snd m = Raise e.
Definition output {A} (m : M A) : list LogRecord := fst m.

(** [self.<attribute>]: an attribute never assigned raises. *)
Definition getattr {A} (attribute : string) (slot : option A) : M A :=
  match slot with
  | Some a => ret a
  | None => raise (AttributeError attribute)
  end.

(* ------------------------------------------------------------------ *)
(** ** Python dictionaries, in insertion order *)

Section Dict.
Variable V : Type.

Definition Dict : Type := list (string * V).

Fixpoint dict_get (d : Dict) (k : string) : option V :=
  match d with
  | [] => None
  | (k', v) :: d' => if String.eqb k k' then Some v else dict_get d' k
  end.

(** [k in d] *)
Definition dict_contains (d : Dict) (k : string) : bool :=
  match dict_get d k with Some _ => true | None => false end.

(** [d[k] = v] *)
Fixpoint dict_set (d : Dict) (k : string) (v : V) : Dict :=
  match d with
  | [] => [(k, v)]
  | (k', v') :: d' =>
      if String.eqb k k' then (k', v) :: d' else (k', v') :: dict_set d' k v
  end.

(** [d[k]] *)
Definition dict_getitem (d : Dict) (k : string) : M V :=
  match dict_get d k with
  | Some v => ret v
  | None => raise (KeyError k)
  end.

Definition dict_keys (d : Dict) : list string := map fst d.

Definition dict_items (d : Dict) : list (string * V) := d.
End Dict.

(** [d.setdefault(k, []).append(x)] *)
Fixpoint setdefault_append (d : Dict (list string)) (k x : string)
  : Dict (list string) :=
  match d with
  | [] => [(k, [x])]
  | (k', l) :: d' =>
      if String.eqb k k' then (k', l ++ [x]) :: d'
      else (k', l) :: setdefault_append d' k x
  end.

(* ------------------------------------------------------------------ *)
(** ** Stable sorting: [sorted] and [ORDER BY] *)

Section Sort.
Variable A : Type.
Variable leb : A -> A -> bool.

Fixpoint insert_sorted (x : A) (l : list A) : list A :=
  match l with
  | [] => [x]
  | y :: l' => if leb x y then x :: y :: l' else y :: insert_sorted x l'
  end.

Definition sort_by (l : list A) : list A := fold_right insert_sorted [] l.
End Sort.

(** [sorted(names)]: strings compare by code point. *)
Definition sorted (names : list string) : list string :=
  sort_by String.leb names.

(* ------------------------------------------------------------------ *)
(** ** What rosbag2_py hands back: bag metadata *)

Record TopicMetadata : Type := {
  name : string;
  type : string;
  serialization_format : string;
  offered_qos_profiles : string
}.

Record TopicInformation : Type := {
  topic_metadata : TopicMetadata;
  message_count : Z
}.

Record BagMetadata : Type := {
  bag_size : Z;
  starting_time : Z;
  duration : Z;
  relative_file_paths : list string;
  topics_with_message_count : list TopicInformation
}.

(** [rclpy.time.Time] *)
Record Time : Type := { nanoseconds : Z }.

(* ------------------------------------------------------------------ *)
(** ** The sqlite3 file of a bag and the queries run against it *)

Record TopicRow : Type := {
  topics_id : Z;
  topics_name : string;
  topics_type : string;
  topics_serialization_format : string
}.

Record MessageRow : Type := {
  messages_id : Z;
  messages_topic_id : Z;
  messages_timestamp : Z;
  messages_data : list Byte.byte
}.

Record Database : Type := {
  topics : list TopicRow;
  messages : list MessageRow
}.

Definition JoinedRow : Type := (MessageRow * TopicRow)%type.

(** [FROM messages JOIN topics ON messages.topic_id = topics.id] *)
Definition messages_join_topics (db : Database) : list JoinedRow :=
  flat_map
    (fun m => map (fun t => (m, t))
                  (filter (fun t => messages_topic_id m =? topics_id t) (topics db)))
    (messages db).

(** The conditions the three retrieval methods write after [WHERE]. *)
Inductive Condition : Type :=
| TimestampLe (n : Z)                  (* timestamp<=n *)
| TimestampGt (n : Z)                  (* timestamp>n *)
| TimestampGe (n : Z)                  (* timestamp>=n *)
| TopicsNameEq (s : string)            (* topics.name="s" *)
| And (c1 c2 : Condition).

Inductive Direction : Type := ASC | DESC.

(** [<condition> ORDER BY messages.timestamp [DESC] [LIMIT n];] *)
Record SqlQuery : Type := {
  sql_where : Condition;
  sql_order : Direction;
  sql_limit : option nat
}.

Fixpoint holds (c : Condition) (r : JoinedRow) : bool :=
  match c with
  | TimestampLe n => messages_timestamp (fst r) <=? n
  | TimestampGt n => messages_timestamp (fst r) >? n
  | TimestampGe n => messages_timestamp (fst r) >=? n
  | TopicsNameEq s => String.eqb (topics_name (snd r)) s
  | And c1 c2 => holds c1 r && holds c2 r
  end.

Definition timestamp_leb (d : Direction) (r1 r2 : JoinedRow) : bool :=
  match d with
  | ASC => messages_timestamp (fst r1) <=? messages_timestamp (fst r2)
  | DESC => messages_timestamp (fst r2) <=? messages_timestamp (fst r1)
  end.

Definition limit (n : option nat) (rows : list JoinedRow) : list JoinedRow :=
  match n with
  | Some k => firstn k rows
  | None => rows
  end.

(** [ORDER BY messages.timestamp [DESC]]: the descending scan runs over
    the rows backwards, so rows of equal timestamp come out last stored
    first. *)
Definition order_by (d : Direction) (rows : list JoinedRow) : list JoinedRow :=
  match d with
  | ASC => sort_by (timestamp_leb ASC) rows
  | DESC => sort_by (timestamp_leb DESC) (rev rows)
  end.

(** The rows kept by [WHERE <where> ORDER BY messages.timestamp <order>
    [LIMIT <limit>]]. *)
Definition select_rows (db : Database) (q : SqlQuery) : list JoinedRow :=
  limit (sql_limit q)
    (order_by (sql_order q)
       (filter (holds (sql_where q)) (messages_join_topics db))).

(** A fetched row: [topics.name, data, timestamp]. *)
Definition Row : Type := (string * list Byte.byte * Z)%type.

(** The rows of [SELECT topics.name, data, timestamp FROM messages JOIN
    topics ON ... WHERE ...] for a statement in parsed form. *)
Definition fetchall (db : Database) (q : SqlQuery) : list Row :=
  map (fun r => (topics_name (snd r), messages_data (fst r),
                 messages_timestamp (fst r)))
      (select_rows db q).

(* ------------------------------------------------------------------ *)
(** ** The outside world of a handle *)

(** [rosbag2_open uri] is what [SequentialReader.open] followed by
    [get_metadata] yields for the bag at [uri] ([None] when opening raises);
    [sqlite3_connect path] is the content of the sqlite3 file at [path],
    [None] when the path holds no readable database with the two tables;
    [sqlite3_pasted path topic sql_query] is what sqlite3 answers on that
    file to the query text with [topic] pasted in, for a [topic] that is
    not a plain name. *)
Record World : Type := {
  rosbag2_open : string -> option BagMetadata;
  sqlite3_connect : string -> option Database;
  sqlite3_pasted : string -> string -> SqlQuery -> Result (list Row)
}.

(** [os.path.join] (posixpath) on two components. *)
Definition startswith_sep (s : string) : bool :=
  match s with
  | String c _ => Ascii.eqb c "/"
  | EmptyString => false
  end.

Fixpoint endswith_sep (s : string) : bool :=
  match s with
  | EmptyString => false
  | String c EmptyString => Ascii.eqb c "/"
  | String _ s' => endswith_sep s'
  end.

Definition os_path_join (a b : string) : string :=
  if startswith_sep b then b
  else if (String.eqb a "" || endswith_sep a)%bool then (a ++ b)%string
  else (a ++ "/" ++ b)%string.

(* ------------------------------------------------------------------ *)
(** ** class Rosbag2 *)

Definition WRITE_ONLY_MSG : string := "open for writing only, returning None".

Module Entry.
(** [namedtuple('Entry', ['topic', 'data', 'timestamp'])] *)
Record t : Type := make {
  topic : string;
  data : list Byte.byte;
  timestamp : Z
}.
End Entry.

Definition Entry_of_row (row : string * list Byte.byte * Z) : Entry.t :=
  let '(topic, data, timestamp) := row in Entry.make topic data timestamp.

Record SequentialReader : Type := { storage_uri : string }.

Record Rosbag2 : Type := {
  bag_path : string;
  reader : option SequentialReader;
  metadata : option BagMetadata;
  db_name : option string;
  topic_metadata_map : option (Dict TopicMetadata)
}.

(** The dict comprehension of [__init__]. *)
Definition topic_metadata_map_of (md : BagMetadata) : Dict TopicMetadata :=
  fold_left
    (fun d t_info =>
       dict_set d (name (topic_metadata t_info)) (topic_metadata t_info))
    (topics_with_message_count md) [].

(** [Rosbag2(bag_path, recording)]; the remaining keyword arguments are
    never read. *)
Definition __init__ (w : World) (bag_path : string) (recording : bool)
  : M Rosbag2 :=
  if recording then
    ret {| bag_path := bag_path; reader := None; metadata := None;
           db_name := None; topic_metadata_map := None |}
  else
    match rosbag2_open w bag_path with
    | None => raise RuntimeError
    | Some md =>
        match relative_file_paths md with
        | [] => raise IndexError
        | first :: _ =>
            ret {| bag_path := bag_path;
                   reader := Some {| storage_uri := bag_path |};
                   metadata := Some md;
                   db_name := Some (os_path_join bag_path first);
                   topic_metadata_map := Some (topic_metadata_map_of md) |}
        end
    end.

Definition size (self : Rosbag2) : M Z :=
  md <- getattr "metadata" (metadata self) ;;
  ret (bag_size md).

Definition get_earliest_timestamp (self : Rosbag2) : M Z :=
  emit (Info "GET START") ;;;
  md <- getattr "metadata" (metadata self) ;;
  ret (starting_time md).

Definition get_latest_timestamp (self : Rosbag2) : M Z :=
  emit (Info "GET END") ;;;
  md <- getattr "metadata" (metadata self) ;;
  let end_ := starting_time md + duration md in
  emit (Print "ITS A " end_) ;;;
  ret (starting_time md + duration md).

Definition get_topics (self : Rosbag2) : M (list string) :=
  tm <- getattr "topic_metadata_map" (topic_metadata_map self) ;;
  ret (sorted (dict_keys tm)).

Definition get_topic_type (self : Rosbag2) (topic : string)
  : M (option string) :=
  tm <- getattr "topic_metadata_map" (topic_metadata_map self) ;;
  if negb (dict_contains tm topic) then ret None
  else
    md <- dict_getitem tm topic ;;
    ret (Some (type md)).

Definition get_topic_metadata (self : Rosbag2) (topic : string)
  : M (option TopicMetadata) :=
  tm <- getattr "topic_metadata_map" (topic_metadata_map self) ;;
  if negb (dict_contains tm topic) then ret None
  else
    md <- dict_getitem tm topic ;;
    ret (Some md).

Definition get_topics_by_type (self : Rosbag2) : M (Dict (list string)) :=
  tm <- getattr "topic_metadata_map" (topic_metadata_map self) ;;
  ret (fold_left
         (fun topics_by_type item =>
            setdefault_append topics_by_type (type (snd item)) (fst item))
         (dict_items tm) []).

(** A character of a ROS name: a letter, a digit, an underscore or a
    slash. *)
Definition ros_name_char (c : ascii) : bool :=
  let n := nat_of_ascii c in
  ((48 <=? n) && (n <=? 57) || (65 <=? n) && (n <=? 90)
   || (97 <=? n) && (n <=? 122) || (n =? 95) || (n =? 47))%nat%bool.

(** A plain topic name: a leading slash and only name characters.  Pasted
    between double quotes it is a single token and no column of [messages]
    or [topics] (no column name holds a slash). *)
Definition plain_topic_name (topic : string) : bool :=
  startswith_sep topic && forallb ros_name_char (list_ascii_of_string topic).

(** [base_query + sql_query] when a plain topic name was pasted in: the
    condition [topics.name="<topic>"AND <where>]. *)
Definition with_topic (topic : string) (sql_query : SqlQuery) : SqlQuery :=
  {| sql_where := And (TopicsNameEq topic) (sql_where sql_query);
     sql_order := sql_order sql_query;
     sql_limit := sql_limit sql_query |}.

(** [with sqlite3.connect(path) as db: ... cursor.execute(base_query +
    sql_query).fetchall()], where [pasted] is the topic name written into
    [base_query], if any.  Nothing is caught: an error of sqlite3 leaves the
    method. *)
Definition execute_fetchall (w : World) (path : string)
    (pasted : option string) (sql_query : SqlQuery) : M (list Row) :=
  match sqlite3_connect w path with
  | None => raise Sqlite3Error
  | Some db =>
      match pasted with
      | None => ret (fetchall db sql_query)
      | Some topic =>
          if plain_topic_name topic
          then ret (fetchall db (with_topic topic sql_query))
          else ([], sqlite3_pasted w path topic sql_query)
      end
  end.

Definition _execute_sql_query (w : World) (self : Rosbag2)
    (sql_query : SqlQuery) (topic : option string) : M (list Entry.t) :=
  let execute (pasted : option string) : M (list Entry.t) :=
    path <- getattr "db_name" (db_name self) ;;
    entries <- execute_fetchall w path pasted sql_query ;;
    ret (map Entry_of_row entries) in
  match topic with
  | Some topic =>
      tm <- getattr "topic_metadata_map" (topic_metadata_map self) ;;
      if negb (dict_contains tm topic) then ret []
      else execute (Some topic)
  | None => execute None
  end.

(** [not self.reader] *)
Definition not_reader (self : Rosbag2) : bool :=
  match reader self with
  | Some _ => false
  | None => true
  end.

Definition get_entry (w : World) (self : Rosbag2) (timestamp : Time)
    (topic : option string) : M (option Entry.t) :=
  if not_reader self then
    emit (Warn ("get_entry - " ++ WRITE_ONLY_MSG)%string) ;;;
    ret None
  else
    emit (Info "GET ENTRY") ;;;
    let sql_query :=
      {| sql_where := TimestampLe (nanoseconds timestamp);
         sql_order := DESC; sql_limit := Some 1%nat |} in
    result <- _execute_sql_query w self sql_query topic ;;
    ret (hd_error result).

Definition get_entry_after (w : World) (self : Rosbag2) (timestamp : Time)
    (topic : option string) : M (option Entry.t) :=
  if not_reader self then
    emit (Warn ("get_entry_after - " ++ WRITE_ONLY_MSG)%string) ;;;
    ret None
  else
    emit (Info "GET ENTRY AFTER") ;;;
    let sql_query :=
      {| sql_where := TimestampGt (nanoseconds timestamp);
         sql_order := ASC; sql_limit := Some 1%nat |} in
    result <- _execute_sql_query w self sql_query topic ;;
    ret (hd_error result).

Definition get_entries_in_range (w : World) (self : Rosbag2)
    (t_start t_end : Time) (topic : option string)
  : M (option (list Entry.t)) :=
  if not_reader self then
    emit (Warn ("get_entries_in_range - " ++ WRITE_ONLY_MSG)%string) ;;;
    ret None
  else
    emit (Info "GET ENTRIES IN RANGE") ;;;
    let sql_query :=
      {| sql_where := And (TimestampGe (nanoseconds t_start))
                          (TimestampLe (nanoseconds t_end));
         sql_order := ASC; sql_limit := None |} in
    result <- _execute_sql_query w self sql_query topic ;;
    ret (Some result).

(* ------------------------------------------------------------------ *)
(** ** Vocabulary of the properties *)

(** The catalog built by the dict comprehension: keys are unique and every
    key is the name of the metadata stored under it. *)
Definition catalog_ok (tm : Dict TopicMetadata) : Prop :=
  NoDup (dict_keys tm) /\ forall k v, In (k, v) tm -> name v = k.

(** A handle in read mode, with the metadata it was built from. *)
Record Reading (self : Rosbag2) (md : BagMetadata) (path : string)
  : Prop := {
  reading_reader : not_reader self = false;
  reading_metadata : metadata self = Some md;
  reading_db_name : db_name self = Some path;
  reading_map : topic_metadata_map self = Some (topic_metadata_map_of md)
}.

(** A handle in write mode: nothing but the path is set. *)
Definition recording_handle (bag_path : string) : Rosbag2 :=
  {| bag_path := bag_path; reader := None; metadata := None;
     db_name := None; topic_metadata_map := None |}.

(** Every name listed by [get_topics] has a type, every other string has
    none. *)
Definition topic_types_defined (self : Rosbag2) : Prop :=
  exists names,
    returns (get_topics self) names /\
    forall t,
      (In t names -> exists ty, returns (get_topic_type self t) (Some ty)) /\
      (~ In t names -> returns (get_topic_type self t) None).

(** [get_topic_type] and [get_topic_metadata] agree on every name. *)
Definition type_and_metadata_agree (self : Rosbag2) : Prop :=
  exists names,
    returns (get_topics self) names /\
    forall t,
      (~ In t names ->
       returns (get_topic_type self t) None /\
       returns (get_topic_metadata self t) None) /\
      (In t names ->
       exists md,
         returns (get_topic_metadata self t) (Some md) /\
         returns (get_topic_type self t) (Some (type md)) /\
         name md = t).

(** What holds of the groups once the catalog items [done] have been
    visited. *)
Definition grouped (g : Dict (list string)) (done : list (string * TopicMetadata))
  : Prop :=
  NoDup (dict_keys g) /\
  (forall ty members,
      In (ty, members) g ->
      members <> [] /\
      forall t, In t members -> exists v, In (t, v) done /\ type v = ty) /\
  Permutation (List.concat (map snd g)) (map fst done).

(** The groups of [get_topics_by_type] partition the names of [get_topics]
    by type. *)
Definition partitions_by_type (self : Rosbag2) : Prop :=
  exists groups names,
    returns (get_topics_by_type self) groups /\
    returns (get_topics self) names /\
    NoDup (dict_keys groups) /\
    (forall ty members,
        In (ty, members) groups ->
        members <> [] /\
        forall t, In t members -> returns (get_topic_type self t) (Some ty)) /\
    (forall t, In t names ->
        exists ty members,
          In (ty, members) groups /\ In t members /\
          forall ty' members',
            In (ty', members') groups -> In t members' ->
            ty' = ty /\ members' = members) /\
    NoDup (List.concat (map snd groups)) /\
    Permutation (List.concat (map snd groups)) names.

(** The entry a joined row stands for. *)
Definition entry_of (r : JoinedRow) : Entry.t :=
  Entry.make (topics_name (snd r)) (messages_data (fst r))
             (messages_timestamp (fst r)).

(** All entries of a database: every message with the name of its topic. *)
Definition stored_entries (db : Database) : list Entry.t :=
  map entry_of (messages_join_topics db).

(** The entries of the sqlite3 file at [path]; none if it is unreadable. *)
Definition file_entries (w : World) (path : string) : list Entry.t :=
  match sqlite3_connect w path with
  | Some db => stored_entries db
  | None => []
  end.

(** The entries stored in the one sqlite3 file a handle queries: the first
    of the bag's storage files. *)
Definition first_file_entries (w : World) (self : Rosbag2) : list Entry.t :=
  match db_name self with
  | Some path => file_entries w path
  | None => []
  end.


(** The sqlite3 file the handle queries holds a readable database. *)
Definition storage_readable (w : World) (self : Rosbag2) : Prop :=
  exists path db,
    db_name self = Some path /\ sqlite3_connect w path = Some db.

(** The requested topic, if any, is a plain name. *)
Definition plain_topic (topic : option string) : Prop :=
  match topic with
  | Some n => plain_topic_name n = true
  | None => True
  end.

Definition on_topic (topic : option string) (e : Entry.t) : Prop :=
  match topic with
  | Some n => Entry.topic e = n
  | None => True
  end.

(** The requested topic, if any, is one of [get_topics()]. *)
Definition in_catalog (self : Rosbag2) (topic : option string) : Prop :=
  match topic with
  | Some n => exists names, returns (get_topics self) names /\ In n names
  | None => True
  end.

(** [r] is an entry of maximum timestamp among the entries [es] on [topic]
    with timestamp [<= t], or [None] when there is no such entry. *)
Definition latest_at_or_before (es : list Entry.t) (topic : option string)
    (t : Z) (r : option Entry.t) : Prop :=
  match r with
  | Some e =>
      In e es /\ on_topic topic e /\ Entry.timestamp e <= t /\
      forall e', In e' es -> on_topic topic e' -> Entry.timestamp e' <= t ->
                 Entry.timestamp e' <= Entry.timestamp e
  | None =>
      forall e', In e' es -> on_topic topic e' -> ~ Entry.timestamp e' <= t
  end.

(** [r] is an entry of minimum timestamp among the entries [es] on [topic]
    with timestamp [> t], or [None] when there is no such entry. *)
Definition earliest_after (es : list Entry.t) (topic : option string)
    (t : Z) (r : option Entry.t) : Prop :=
  match r with
  | Some e =>
      In e es /\ on_topic topic e /\ Entry.timestamp e > t /\
      forall e', In e' es -> on_topic topic e' -> Entry.timestamp e' > t ->
                 Entry.timestamp e <= Entry.timestamp e'
  | None =>
      forall e', In e' es -> on_topic topic e' -> ~ Entry.timestamp e' > t
  end.

Definition nondecreasing (l : list Entry.t) : Prop :=
  StronglySorted (fun a b => Entry.timestamp a <= Entry.timestamp b) l.

(** The condition [_execute_sql_query] ends up running. *)
Definition condition_for (topic : option string) (c : Condition) : Condition :=
  match topic with
  | Some n => And (TopicsNameEq n) c
  | None => c
  end.

(* ------------------------------------------------------------------ *)
(** ** A small bag, used to run the methods *)

Definition tm_a : TopicMetadata :=
  {| name := "/a"; type := "TypeX"; serialization_format := "cdr";
     offered_qos_profiles := "" |}.

Definition tm_b : TopicMetadata :=
  {| name := "/b"; type := "TypeY"; serialization_format := "cdr";
     offered_qos_profiles := "" |}.

Definition example_metadata : BagMetadata :=
  {| bag_size := 4096; starting_time := 10; duration := 20;
     relative_file_paths := ["bag_0.db3"];
     topics_with_message_count :=
       [ {| topic_metadata := tm_b; message_count := 0 |};
         {| topic_metadata := tm_a; message_count := 4 |} ] |}.

Definition msg (rowid topic_id ts : Z) : MessageRow :=
  {| messages_id := rowid; messages_topic_id := topic_id;
     messages_timestamp := ts; messages_data := [] |}.

Definition example_db : Database :=
  {| topics :=
       [ {| topics_id := 1; topics_name := "/a"; topics_type := "TypeX";
            topics_serialization_format := "cdr" |};
         {| topics_id := 2; topics_name := "/b"; topics_type := "TypeY";
            topics_serialization_format := "cdr" |} ];
     messages := [ msg 1 1 10; msg 2 1 20; msg 3 1 20; msg 4 1 30 ] |}.

Definition example_world : World :=
  {| rosbag2_open := fun _ => Some example_metadata;
     sqlite3_connect := fun path =>
       if String.eqb path "bag/bag_0.db3" then Some example_db else None;
     sqlite3_pasted := fun _ _ _ => Raise Sqlite3Error |}.

Definition example_bag : Rosbag2 :=
  {| bag_path := "bag"; reader := Some {| storage_uri := "bag" |};
     metadata := Some example_metadata;
     db_name := Some "bag/bag_0.db3";
     topic_metadata_map := Some [("/b", tm_b); ("/a", tm_a)] |}.




Definition at_ns (n : Z) : Time := {| nanoseconds := n |}.





(** A bag whose storage file is not a readable database. *)
Definition unreadable_world : World :=
  {| rosbag2_open := fun _ => Some example_metadata;
     sqlite3_connect := fun _ => None;
     sqlite3_pasted := fun _ _ _ => Raise Sqlite3Error |}.

(** A catalogued name that holds a double quote: [/a], a double quote, a
    space and two dashes.  Pasted into the query text it closes the quoted
    token and turns the rest of the statement, time bounds and [ORDER BY]
    included, into a comment: what is left is [WHERE topics.name="/a"]. *)
Definition comment_topic : string :=
  ("/a" ++ String (ascii_of_nat 34) " --")%string.





(** Two messages on "/a" stored at the same timestamp, told apart by their
    payload. *)
Definition tie_db : Database :=
  {| topics := topics example_db;
     messages :=
       [ {| messages_id := 1; messages_topic_id := 1;
            messages_timestamp := 20; messages_data := [Byte.x01] |};
         {| messages_id := 2; messages_topic_id := 1;
            messages_timestamp := 20; messages_data := [Byte.x02] |} ] |}.

Definition tie_world : World :=
  {| rosbag2_open := fun _ => Some example_metadata;
     sqlite3_connect := fun _ => Some tie_db;
     sqlite3_pasted := fun _ _ _ => Raise Sqlite3Error |}.

(* ------------------------------------------------------------------ *)
(** ** Deserialization *)

Section Deserialize.
(** [rosidl_runtime_py.utilities.get_message] and
    [rclpy.serialization.deserialize_message] are outside the repository:
    the method takes them as parameters.  [get_message] receives whatever
    [get_topic_type] returned, [None] included. *)
Variable MsgType : Type.
Variable Message : Type.
Variable get_message : option string -> M MsgType.
Variable deserialize_message : list Byte.byte -> MsgType -> M Message.

Definition deserialize_entry (self : Rosbag2) (entry : Entry.t)
  : M (Message * option string * string) :=
  msg_type_name <- get_topic_type self (Entry.topic entry) ;;
  msg_type <- get_message msg_type_name ;;
  ros_message <- deserialize_message (Entry.data entry) msg_type ;;
  ret (ros_message, msg_type_name, Entry.topic entry).
End Deserialize.

(* ------------------------------------------------------------------ *)
(** ** Further vocabulary *)

(** The entry lies on [topic] (if one is given) and in [[t0, t1]]. *)
Definition entry_in_range (topic : option string) (t0 t1 : Z) (e : Entry.t)
  : bool :=
  match topic with
  | Some n => String.eqb (Entry.topic e) n
  | None => true
  end
  && (t0 <=? Entry.timestamp e) && (Entry.timestamp e <=? t1).

(** The names of the catalog whose metadata has type [ty], in the order of
    the catalog. *)
Definition names_of_type (catalog : Dict TopicMetadata) (ty : string)
  : list string :=
  map fst (filter (fun item => String.eqb (type (snd item)) ty) catalog).

(** The metadata of the last element of [infos] named [t]. *)
Definition last_listed (infos : list TopicInformation) (t : string)
  : option TopicMetadata :=
  option_map topic_metadata
    (find (fun i => String.eqb (name (topic_metadata i)) t) (rev infos)).

(** A codec to run [deserialize_entry] with: the type of a message is its
    name, a message is its bytes, and a missing type name is refused. *)
Definition example_get_message (type_name : option string) : M string :=
  match type_name with
  | Some ty => ret ty
  | None => raise (AttributeError "split")
  end.

Definition example_deserialize_message (data : list Byte.byte)
    (msg_type : string) : M (list Byte.byte) :=
  ret data.

(* ------------------------------------------------------------------ *)
(** ** The methods at work on the small bag *)

Example init_example_bag :
  __init__ example_world "bag" false = ([], Ok example_bag).
Proof. reflexivity. Qed.

Example init_without_files :
  raises (__init__
            {| rosbag2_open := fun _ =>
                 Some {| bag_size := 0; starting_time := 0; duration := 0;
                         relative_file_paths := [];
                         topics_with_message_count := [] |};
               sqlite3_connect := fun _ => Some example_db;
               sqlite3_pasted := fun _ _ _ => Raise Sqlite3Error |}
            "bag" false)
         IndexError.
Proof. reflexivity. Qed.

Example get_topics_example :
  get_topics example_bag = ([], Ok ["/a"; "/b"]).
Proof. reflexivity. Qed.

Example get_topics_by_type_example :
  get_topics_by_type example_bag
  = ([], Ok [("TypeY", ["/b"]); ("TypeX", ["/a"])]).
Proof. reflexivity. Qed.

Example get_latest_timestamp_example :
  get_latest_timestamp example_bag
  = ([Info "GET END"; Print "ITS A " 30], Ok 30).
Proof. reflexivity. Qed.

Example get_entry_example :
  get_entry example_world example_bag (at_ns 20) (Some "/a")
  = ([Info "GET ENTRY"], Ok (Some (Entry.make "/a" [] 20))).
Proof. reflexivity. Qed.

Example get_entry_before_first :
  get_entry example_world example_bag (at_ns 5) (Some "/a")
  = ([Info "GET ENTRY"], Ok None).
Proof. reflexivity. Qed.

Example get_entry_after_example :
  get_entry_after example_world example_bag (at_ns 20) (Some "/a")
  = ([Info "GET ENTRY AFTER"], Ok (Some (Entry.make "/a" [] 30))).
Proof. reflexivity. Qed.

Example get_entries_in_range_example :
  get_entries_in_range example_world example_bag (at_ns 15) (at_ns 25)
    (Some "/a")
  = ([Info "GET ENTRIES IN RANGE"],
     Ok (Some [Entry.make "/a" [] 20; Entry.make "/a" [] 20])).
Proof. reflexivity. Qed.

Example get_entries_in_range_reversed :
  get_entries_in_range example_world example_bag (at_ns 25) (at_ns 15) None
  = ([Info "GET ENTRIES IN RANGE"], Ok (Some [])).
Proof. reflexivity. Qed.

Example get_entry_tie :
  get_entry tie_world example_bag (at_ns 20) (Some "/a")
  = ([Info "GET ENTRY"], Ok (Some (Entry.make "/a" [Byte.x02] 20))).
Proof. reflexivity. Qed.

Example get_entry_after_tie :
  get_entry_after tie_world example_bag (at_ns 10) (Some "/a")
  = ([Info "GET ENTRY AFTER"], Ok (Some (Entry.make "/a" [Byte.x01] 20))).
Proof. reflexivity. Qed.

Example get_entries_in_range_tie :
  get_entries_in_range tie_world example_bag (at_ns 20) (at_ns 20) None
  = ([Info "GET ENTRIES IN RANGE"],
     Ok (Some [Entry.make "/a" [Byte.x01] 20; Entry.make "/a" [Byte.x02] 20])).
Proof. reflexivity. Qed.

Example get_entry_unreadable_file :
  get_entry unreadable_world example_bag (at_ns 20) None
  = ([Info "GET ENTRY"], Raise Sqlite3Error).
Proof. reflexivity. Qed.

Example plain_topic_names :
  plain_topic_name "/a" = true /\ plain_topic_name "/camera_0/image" = true /\
  plain_topic_name "name" = false /\ plain_topic_name "id" = false /\
  plain_topic_name comment_topic = false.
Proof. repeat split. Qed.

Example size_recording :
  raises (size (recording_handle "bag")) (AttributeError "metadata").
Proof. reflexivity. Qed.

(* ------------------------------------------------------------------ *)
(** ** Facts about the monad *)

Lemma returns_inj {A} (m : M A) (a b : A) :
  returns m a -> returns m b -> a = b.
Proof. unfold returns. intros Ha Hb. rewrite Ha in Hb. now inversion Hb. Qed.

Lemma returns_not_raises {A} (m : M A) (a : A) (e : Exception) :
  returns m a -> ~ raises m e.
Proof. unfold returns, raises. intros Ha He. rewrite Ha in He. discriminate. Qed.

(* ------------------------------------------------------------------ *)
(** ** Facts about stable sorting *)

Section SortFacts.
Variable A : Type.
Variable leb : A -> A -> bool.

Lemma insert_sorted_perm (x : A) (l : list A) :
  Permutation (insert_sorted leb x l) (x :: l).
Proof.
  induction l as [|y l IH]; simpl.
  - apply Permutation_refl.
  - destruct (leb x y).
    + apply Permutation_refl.
    + eapply perm_trans; [apply perm_skip, IH | apply perm_swap].
Qed.

Lemma sort_by_perm (l : list A) : Permutation (sort_by leb l) l.
Proof.
  induction l as [|x l IH]; simpl.
  - constructor.
  - eapply perm_trans; [apply insert_sorted_perm | now apply perm_skip].
Qed.

Lemma sort_by_in (l : list A) (x : A) : In x (sort_by leb l) <-> In x l.
Proof.
  split; apply Permutation_in;
    [apply sort_by_perm | apply Permutation_sym, sort_by_perm].
Qed.

Lemma sort_by_nil (l : list A) : sort_by leb l = [] -> l = [].
Proof.
  intros H. apply Permutation_nil. rewrite <- H.
  apply sort_by_perm.
Qed.

Lemma sort_by_nodup (l : list A) : NoDup l -> NoDup (sort_by leb l).
Proof.
  intros H. eapply Permutation_NoDup; [|exact H].
  apply Permutation_sym, sort_by_perm.
Qed.

Hypothesis leb_total : forall a b, leb a b = true \/ leb b a = true.
Hypothesis leb_trans :
  forall a b c, leb a b = true -> leb b c = true -> leb a c = true.

Let le (a b : A) : Prop := leb a b = true.

Lemma insert_sorted_sorted (x : A) (l : list A) :
  StronglySorted le l -> StronglySorted le (insert_sorted leb x l).
Proof.
  induction 1 as [|y l Hs IH Hy]; simpl.
  - repeat constructor.
  - destruct (leb x y) eqn:Hxy.
    + constructor; [now constructor|].
      constructor; [exact Hxy|].
      eapply Forall_impl; [|exact Hy].
      intros z Hz. now apply leb_trans with y.
    + constructor; [exact IH|].
      assert (Hyx : le y x) by (destruct (leb_total x y); [congruence|easy]).
      apply Forall_forall. intros z Hz.
      apply (Permutation_in _ (insert_sorted_perm x l)) in Hz.
      destruct Hz as [<-|Hz]; [exact Hyx|].
      rewrite Forall_forall in Hy. now apply Hy.
Qed.

Lemma sort_by_sorted (l : list A) : StronglySorted le (sort_by leb l).
Proof.
  induction l as [|x l IH]; simpl.
  - constructor.
  - now apply insert_sorted_sorted.
Qed.

(** The first element of the sorted list is a least element of the input. *)
Lemma hd_sort_by (l : list A) :
  match hd_error (sort_by leb l) with
  | Some h => In h l /\ forall x, In x l -> leb h x = true
  | None => l = []
  end.
Proof.
  pose proof (sort_by_sorted l) as Hs.
  pose proof (sort_by_in l) as Hin.
  destruct (sort_by leb l) as [|h s] eqn:E; simpl.
  - now apply sort_by_nil.
  - split; [apply Hin; now left|].
    intros x Hx. apply Hin in Hx. destruct Hx as [<-|Hx].
    + destruct (leb_total h h); assumption.
    + inversion Hs as [|? ? _ Hall]; subst.
      rewrite Forall_forall in Hall. now apply Hall.
Qed.
End SortFacts.

(* ------------------------------------------------------------------ *)
(** ** Facts about dictionaries *)

Section DictFacts.
Variable V : Type.
Implicit Types (d : Dict V) (k : string) (v : V).

Lemma dict_get_in d k v : dict_get d k = Some v -> In (k, v) d.
Proof.
  induction d as [|[k' v'] d IH]; simpl; [discriminate|].
  destruct (String.eqb_spec k k') as [->|Hne]; intros H.
  - inversion H; subst. now left.
  - right. now apply IH.
Qed.

Lemma dict_get_none d k : dict_get d k = None <-> ~ In k (dict_keys d).
Proof.
  induction d as [|[k' v'] d IH]; simpl; [tauto|].
  destruct (String.eqb_spec k k') as [->|Hne].
  - split; [discriminate|]. intros H. exfalso. apply H. now left.
  - rewrite IH. split; intros H; [intros [E|E]; [congruence|tauto]|tauto].
Qed.

Lemma dict_contains_keys d k :
  dict_contains d k = true <-> In k (dict_keys d).
Proof.
  unfold dict_contains. pose proof (dict_get_none d k) as H.
  destruct (dict_get d k).
  - split; [intros _|reflexivity].
    destruct (in_dec string_dec k (dict_keys d)) as [Hin|Hout]; [exact Hin|].
    apply H in Hout. discriminate.
  - split; [discriminate|]. intros Hin. now apply H in Hin.
Qed.

Lemma in_dict_get d k v :
  NoDup (dict_keys d) -> In (k, v) d -> dict_get d k = Some v.
Proof.
  induction d as [|[k' v'] d IH]; simpl; [tauto|].
  intros Hnd [E|Hin].
  - inversion E; subst. now rewrite String.eqb_refl.
  - inversion Hnd as [|? ? Hk' Hnd']; subst.
    destruct (String.eqb_spec k k') as [->|Hne].
    + exfalso. apply Hk'. change k' with (fst (k', v)). now apply in_map.
    + now apply IH.
Qed.

Lemma dict_set_keys d k v :
  dict_keys (dict_set d k v)
  = if dict_contains d k then dict_keys d else dict_keys d ++ [k].
Proof.
  unfold dict_contains.
  induction d as [|[k' v'] d IH]; simpl; [reflexivity|].
  destruct (String.eqb_spec k k') as [->|Hne]; simpl; [reflexivity|].
  rewrite IH. now destruct (dict_get d k).
Qed.

Lemma dict_set_nodup d k v :
  NoDup (dict_keys d) -> NoDup (dict_keys (dict_set d k v)).
Proof.
  intros Hnd. rewrite dict_set_keys.
  destruct (dict_contains d k) eqn:E; [exact Hnd|].
  apply NoDup_app; [exact Hnd| repeat constructor; simpl; tauto |].
  intros x Hx [<-|[]]. apply dict_contains_keys in Hx. congruence.
Qed.

Lemma dict_set_in d k v k' v' :
  In (k', v') (dict_set d k v) -> In (k', v') d \/ (k' = k /\ v' = v).
Proof.
  induction d as [|[k0 v0] d IH]; simpl.
  - intros [E|[]]. inversion E. now right.
  - destruct (String.eqb_spec k k0) as [->|Hne]; simpl.
    + intros [E|Hin]; [inversion E; now right|left; now right].
    + intros [E|Hin]; [left; now left|].
      destruct (IH Hin) as [H|H]; [left; now right|now right].
Qed.
End DictFacts.

(* ------------------------------------------------------------------ *)
(** ** The handle built by [__init__] *)

Lemma catalog_ok_fold (infos : list TopicInformation) (tm : Dict TopicMetadata) :
  catalog_ok tm ->
  catalog_ok
    (fold_left
       (fun d t_info =>
          dict_set d (name (topic_metadata t_info)) (topic_metadata t_info))
       infos tm).
Proof.
  revert tm. induction infos as [|i infos IH]; intros tm [Hnd Hname]; simpl.
  - now split.
  - apply IH. split.
    + now apply dict_set_nodup.
    + intros k v Hin. apply dict_set_in in Hin.
      destruct Hin as [Hin|[-> ->]]; [now apply Hname|reflexivity].
Qed.

Lemma topic_metadata_map_ok (md : BagMetadata) :
  catalog_ok (topic_metadata_map_of md).
Proof.
  apply catalog_ok_fold. split; [constructor|intros k v []].
Qed.

Lemma init_reading (w : World) (bag_path : string) (self : Rosbag2) :
  returns (__init__ w bag_path false) self ->
  exists md path, Reading self md path.
Proof.
  unfold returns, __init__.
  destruct (rosbag2_open w bag_path) as [md|]; [|discriminate].
  destruct (relative_file_paths md) as [|first rest]; [discriminate|].
  simpl. intros H. inversion H; subst; clear H.
  exists md, (os_path_join bag_path first). now split.
Qed.

Lemma init_recording (w : World) (bag_path : string) (self : Rosbag2) :
  returns (__init__ w bag_path true) self -> self = recording_handle bag_path.
Proof. unfold returns. simpl. intros H. now inversion H. Qed.

Lemma get_topics_reading self md path :
  Reading self md path ->
  get_topics self = ([], Ok (sorted (dict_keys (topic_metadata_map_of md)))).
Proof. intros [_ _ _ Hm]. unfold get_topics. now rewrite Hm. Qed.

Lemma get_topic_metadata_reading self md path (topic : string) :
  Reading self md path ->
  get_topic_metadata self topic
  = ([], Ok (dict_get (topic_metadata_map_of md) topic)).
Proof.
  intros [_ _ _ Hm]. unfold get_topic_metadata. rewrite Hm. cbn.
  unfold dict_contains, dict_getitem.
  now destruct (dict_get (topic_metadata_map_of md) topic).
Qed.

Lemma get_topic_type_reading self md path (topic : string) :
  Reading self md path ->
  get_topic_type self topic
  = ([], Ok (option_map type (dict_get (topic_metadata_map_of md) topic))).
Proof.
  intros [_ _ _ Hm]. unfold get_topic_type. rewrite Hm. cbn.
  unfold dict_contains, dict_getitem.
  now destruct (dict_get (topic_metadata_map_of md) topic).
Qed.

Lemma in_sorted_keys (V : Type) (d : Dict V) (k : string) :
  In k (sorted (dict_keys d)) <-> dict_get d k <> None.
Proof.
  unfold sorted. rewrite sort_by_in, dict_get_none.
  destruct (in_dec string_dec k (dict_keys d)); tauto.
Qed.

Lemma init_metadata (w : World) (bag_path : string) (self : Rosbag2) :
  returns (__init__ w bag_path false) self ->
  exists md, rosbag2_open w bag_path = Some md /\ metadata self = Some md.
Proof.
  unfold returns, __init__.
  destruct (rosbag2_open w bag_path) as [md|]; [|discriminate].
  destruct (relative_file_paths md) as [|first rest]; [discriminate|].
  simpl. intros H. inversion H; subst; clear H. now exists md.
Qed.

Unset Implicit Arguments.

(* ------------------------------------------------------------------ *)
(** ** Properties of the catalog accessors *)

(** C8. In read mode [get_latest_timestamp] returns exactly
    [get_earliest_timestamp] plus the duration recorded in the bag's
    metadata, as integers. *)
Theorem latest_is_earliest_plus_duration
    (w : World) (bag_path : string) (self : Rosbag2) :
  returns (__init__ w bag_path false) self ->
  exists md earliest latest,
    rosbag2_open w bag_path = Some md /\
    returns (get_earliest_timestamp self) earliest /\
    returns (get_latest_timestamp self) latest /\
    latest = earliest + duration md.
Proof.
  intros Hinit. destruct (init_metadata _ _ Hinit) as (md & Hopen & Hmd).
  exists md, (starting_time md), (starting_time md + duration md).
  unfold returns, get_earliest_timestamp, get_latest_timestamp.
  rewrite Hmd. cbn. auto.
Qed.

Lemma latest_is_earliest_plus_duration_witness :
  returns (__init__ example_world "bag" false) example_bag /\
  exists md earliest latest,
    rosbag2_open example_world "bag" = Some md /\
    returns (get_earliest_timestamp example_bag) earliest /\
    returns (get_latest_timestamp example_bag) latest /\
    latest = earliest + duration md.
Proof.
  split; [reflexivity|].
  apply (latest_is_earliest_plus_duration example_world "bag" example_bag).
  reflexivity.
Defined.

(** C7, for handles opened in read mode: every name in [get_topics()] has
    a type and [get_topic_type] returns [None] for every other string. *)
Theorem reading_topic_types_defined
    (w : World) (bag_path : string) (self : Rosbag2) :
  returns (__init__ w bag_path false) self -> topic_types_defined self.
Proof.
  intros Hinit. destruct (init_reading _ _ Hinit) as (md & path & Hr).
  exists (sorted (dict_keys (topic_metadata_map_of md))).
  unfold returns. rewrite (get_topics_reading Hr). split; [reflexivity|].
  intros t. rewrite (get_topic_type_reading t Hr), in_sorted_keys. cbn.
  destruct (dict_get (topic_metadata_map_of md) t) as [v|]; cbn; split.
  - intros _. now exists (type v).
  - intros H. exfalso. apply H. discriminate.
  - intros H. now contradiction H.
  - reflexivity.
Qed.

Lemma reading_topic_types_defined_witness :
  returns (__init__ example_world "bag" false) example_bag /\
  topic_types_defined example_bag.
Proof.
  split; [reflexivity|].
  apply (reading_topic_types_defined example_world "bag" example_bag).
  reflexivity.
Defined.

(** C7 as stated fails on a handle opened in write mode: the catalog was
    never built, so [get_topics] and [get_topic_type] raise. *)
Lemma recording_topic_types_undefined :
  returns (__init__ example_world "bag" true) (recording_handle "bag") /\
  raises (get_topics (recording_handle "bag"))
         (AttributeError "topic_metadata_map") /\
  raises (get_topic_type (recording_handle "bag") "/a")
         (AttributeError "topic_metadata_map") /\
  ~ topic_types_defined (recording_handle "bag").
Proof.
  repeat split.
  intros (names & Hnames & _). discriminate Hnames.
Qed.

(** C9, for handles opened in read mode: outside the catalog both
    accessors return [None]; inside, [get_topic_metadata(t)] is a record
    whose [type] is [get_topic_type(t)] and whose [name] is [t]. *)
Theorem reading_type_and_metadata_agree
    (w : World) (bag_path : string) (self : Rosbag2) :
  returns (__init__ w bag_path false) self -> type_and_metadata_agree self.
Proof.
  intros Hinit. destruct (init_reading _ _ Hinit) as (md & path & Hr).
  exists (sorted (dict_keys (topic_metadata_map_of md))).
  unfold returns. rewrite (get_topics_reading Hr). split; [reflexivity|].
  intros t.
  rewrite (get_topic_type_reading t Hr), (get_topic_metadata_reading t Hr).
  rewrite in_sorted_keys. cbn.
  destruct (dict_get (topic_metadata_map_of md) t) as [v|] eqn:Hget; cbn; split.
  - intros H. exfalso. apply H. discriminate.
  - intros _. exists v. repeat split.
    apply (proj2 (topic_metadata_map_ok md) t v). now apply dict_get_in.
  - now split.
  - intros H. now contradiction H.
Qed.

Lemma reading_type_and_metadata_agree_witness :
  returns (__init__ example_world "bag" false) example_bag /\
  type_and_metadata_agree example_bag.
Proof.
  split; [reflexivity|].
  apply (reading_type_and_metadata_agree example_world "bag" example_bag).
  reflexivity.
Defined.

(** C9 as stated fails on a handle opened in write mode: both accessors
    raise instead of returning [None]. *)
Lemma recording_type_and_metadata_raise :
  returns (__init__ example_world "bag" true) (recording_handle "bag") /\
  raises (get_topic_type (recording_handle "bag") "/a")
         (AttributeError "topic_metadata_map") /\
  raises (get_topic_metadata (recording_handle "bag") "/a")
         (AttributeError "topic_metadata_map") /\
  ~ type_and_metadata_agree (recording_handle "bag").
Proof.
  repeat split.
  intros (names & Hnames & _). discriminate Hnames.
Qed.

(* ------------------------------------------------------------------ *)
(** ** Grouping topics by type *)

Lemma setdefault_append_keys (g : Dict (list string)) (k x : string) :
  dict_keys (setdefault_append g k x)
  = if dict_contains g k then dict_keys g else dict_keys g ++ [k].
Proof.
  unfold dict_contains.
  induction g as [|[k' l] g IH]; simpl; [reflexivity|].
  destruct (String.eqb_spec k k') as [->|Hne]; simpl; [reflexivity|].
  rewrite IH. now destruct (dict_get g k).
Qed.

Lemma setdefault_append_nodup (g : Dict (list string)) (k x : string) :
  NoDup (dict_keys g) -> NoDup (dict_keys (setdefault_append g k x)).
Proof.
  intros Hnd. rewrite setdefault_append_keys.
  destruct (dict_contains g k) eqn:E; [exact Hnd|].
  apply NoDup_app; [exact Hnd| repeat constructor; simpl; tauto |].
  intros y Hy [<-|[]]. apply dict_contains_keys in Hy. congruence.
Qed.

Lemma setdefault_append_in (g : Dict (list string)) (k x k' : string)
    (l' : list string) :
  In (k', l') (setdefault_append g k x) ->
  In (k', l') g \/
  (k' = k /\ exists l0, l' = l0 ++ [x] /\ (In (k, l0) g \/ l0 = [])).
Proof.
  induction g as [|[k0 l0] g IH]; simpl.
  - intros [E|[]]. inversion E; subst. right. split; [reflexivity|].
    exists []. auto.
  - destruct (String.eqb_spec k k0) as [->|Hne]; simpl.
    + intros [E|Hin]; [|left; now right].
      inversion E; subst. right. split; [reflexivity|].
      exists l0. split; [reflexivity|]. left. now left.
    + intros [E|Hin]; [left; now left|].
      destruct (IH Hin) as [H|(-> & l1 & -> & H)]; [left; now right|].
      right. split; [reflexivity|]. exists l1. split; [reflexivity|].
      destruct H as [H| ->]; [left; now right|now right].
Qed.

Lemma setdefault_append_concat (g : Dict (list string)) (k x : string) :
  Permutation (List.concat (map snd (setdefault_append g k x)))
              (x :: List.concat (map snd g)).
Proof.
  induction g as [|[k0 l0] g IH]; simpl; [apply Permutation_refl|].
  destruct (String.eqb_spec k k0) as [->|Hne]; simpl.
  - rewrite <- app_assoc. simpl.
    apply Permutation_sym, Permutation_middle.
  - eapply perm_trans; [apply Permutation_app_head, IH|].
    apply Permutation_sym, Permutation_middle.
Qed.

Lemma grouped_step g done (item : string * TopicMetadata) :
  grouped g done ->
  grouped (setdefault_append g (type (snd item)) (fst item)) (done ++ [item]).
Proof.
  destruct item as [t v]. simpl. intros (Hnd & Hmem & Hperm).
  split; [now apply setdefault_append_nodup|]. split.
  - intros ty members Hin. apply setdefault_append_in in Hin.
    destruct Hin as [Hin|(-> & l0 & -> & Hl0)].
    + destruct (Hmem _ _ Hin) as [Hne Hall]. split; [exact Hne|].
      intros t' Ht'. destruct (Hall _ Ht') as (v' & Hv' & Hty).
      exists v'. split; [apply in_or_app; now left|exact Hty].
    + split; [now destruct l0|].
      intros t' Ht'. apply in_app_or in Ht'. destruct Ht' as [Ht'|[<-|[]]].
      * destruct Hl0 as [Hl0| ->]; [|contradiction].
        destruct (Hmem _ _ Hl0) as [_ Hall].
        destruct (Hall _ Ht') as (v' & Hv' & Hty).
        exists v'. split; [apply in_or_app; now left|exact Hty].
      * exists v. split; [apply in_or_app; right; now left|reflexivity].
  - rewrite map_app. simpl.
    eapply perm_trans; [apply setdefault_append_concat|].
    eapply perm_trans; [apply perm_skip, Hperm|].
    apply Permutation_cons_append.
Qed.

Lemma grouped_fold (items : list (string * TopicMetadata)) g done :
  grouped g done ->
  grouped
    (fold_left
       (fun topics_by_type item =>
          setdefault_append topics_by_type (type (snd item)) (fst item))
       items g)
    (done ++ items).
Proof.
  revert g done. induction items as [|item items IH]; intros g done Hg; simpl.
  - now rewrite app_nil_r.
  - replace (done ++ item :: items) with ((done ++ [item]) ++ items)
      by (rewrite <- app_assoc; reflexivity).
    apply IH. now apply grouped_step.
Qed.

(** C10, for handles opened in read mode: the mapping has no empty group,
    every member of the group keyed [ty] has type [ty], every catalog name
    lies in exactly one group and occurs once there, and the groups
    together hold exactly the names of [get_topics()]. *)
Theorem reading_partitions_by_type
    (w : World) (bag_path : string) (self : Rosbag2) :
  returns (__init__ w bag_path false) self -> partitions_by_type self.
Proof.
  intros Hinit. destruct (init_reading _ _ Hinit) as (md & path & Hr).
  pose proof (topic_metadata_map_ok md) as [Hnd Hname].
  set (tm := topic_metadata_map_of md) in *.
  assert (Hg : grouped
                 (fold_left
                    (fun topics_by_type item =>
                       setdefault_append topics_by_type
                         (type (snd item)) (fst item)) tm []) tm).
  { apply (grouped_fold tm [] []).
    split; [apply NoDup_nil|]. split; [intros ty members []|constructor]. }
  destruct Hg as (Hkeys & Hmem & Hperm).
  assert (Htype : forall ty members t,
             In (ty, members)
                (fold_left
                   (fun topics_by_type item =>
                      setdefault_append topics_by_type
                        (type (snd item)) (fst item)) tm []) ->
             In t members ->
             returns (get_topic_type self t) (Some ty)).
  { intros ty members t Hin Ht.
    destruct (Hmem _ _ Hin) as [_ Hall].
    destruct (Hall _ Ht) as (v & Hv & <-).
    unfold returns. rewrite (get_topic_type_reading t Hr). fold tm.
    now rewrite (in_dict_get _ _ _ Hnd Hv). }
  eexists _, (sorted (dict_keys tm)). unfold returns at 1 2.
  rewrite (get_topics_reading Hr). fold tm.
  unfold get_topics_by_type. rewrite (reading_map Hr). fold tm. cbn.
  split; [reflexivity|]. split; [reflexivity|].
  split; [exact Hkeys|]. split; [|split; [|split]].
  - intros ty members Hin. split; [now apply (Hmem _ _ Hin)|].
    intros t Ht. now apply (Htype ty members).
  - intros t Ht. apply sort_by_in in Ht.
    apply (Permutation_in _ (Permutation_sym Hperm)) in Ht.
    apply List.in_concat in Ht. destruct Ht as (members & Hm & Ht).
    apply in_map_iff in Hm. destruct Hm as ([ty m] & E & Hm).
    simpl in E. subst m. exists ty, members.
    split; [exact Hm|]. split; [exact Ht|].
    intros ty' members' Hm' Ht'.
    pose proof (returns_inj (Htype _ _ _ Hm Ht) (Htype _ _ _ Hm' Ht')) as E.
    inversion E; subst ty'. split; [reflexivity|].
    pose proof (in_dict_get _ _ _ Hkeys Hm) as G1.
    pose proof (in_dict_get _ _ _ Hkeys Hm') as G2.
    rewrite G1 in G2. now inversion G2.
  - eapply Permutation_NoDup; [apply Permutation_sym, Hperm|exact Hnd].
  - eapply perm_trans; [exact Hperm|].
    apply Permutation_sym, sort_by_perm.
Qed.

Lemma reading_partitions_by_type_witness :
  returns (__init__ example_world "bag" false) example_bag /\
  partitions_by_type example_bag.
Proof.
  split; [reflexivity|].
  apply (reading_partitions_by_type example_world "bag" example_bag).
  reflexivity.
Defined.

(** C10 as stated fails on a handle opened in write mode: there is no
    catalog to group, [get_topics_by_type] raises. *)
Lemma recording_topics_by_type_raises :
  returns (__init__ example_world "bag" true) (recording_handle "bag") /\
  raises (get_topics_by_type (recording_handle "bag"))
         (AttributeError "topic_metadata_map") /\
  ~ partitions_by_type (recording_handle "bag").
Proof.
  repeat split.
  intros (groups & names & Hgroups & _). discriminate Hgroups.
Qed.

(* ------------------------------------------------------------------ *)
(** ** The entries stored in a bag *)

Lemma holds_condition_for topic c r :
  holds (condition_for topic c) r = true
  <-> on_topic topic (entry_of r) /\ holds c r = true.
Proof.
  destruct topic as [n|]; simpl; [|tauto].
  rewrite andb_true_iff, String.eqb_eq. tauto.
Qed.

Lemma fetchall_entries db q :
  map Entry_of_row (fetchall db q) = map entry_of (select_rows db q).
Proof. unfold fetchall. rewrite map_map. reflexivity. Qed.

Lemma in_catalog_reading self md path topic :
  Reading self md path ->
  in_catalog self topic
  <-> match topic with
      | Some n => dict_contains (topic_metadata_map_of md) n = true
      | None => True
      end.
Proof.
  intros Hr. destruct topic as [n|]; simpl; [|tauto].
  rewrite dict_contains_keys. unfold returns.
  rewrite (get_topics_reading Hr). simpl. split.
  - intros (names & E & Hin). inversion E; subst.
    now apply sort_by_in in Hin.
  - intros Hin. eexists. split; [reflexivity|]. now apply sort_by_in.
Qed.

Lemma in_catalog_dec self md path topic :
  Reading self md path -> in_catalog self topic \/ ~ in_catalog self topic.
Proof.
  intros Hr. rewrite (in_catalog_reading self md path topic Hr).
  destruct topic as [n|]; [|now left].
  destruct (dict_contains (topic_metadata_map_of md) n); [now left|].
  right. discriminate.
Qed.

Lemma first_file_entries_reading w self md path db :
  Reading self md path ->
  sqlite3_connect w path = Some db ->
  first_file_entries w self = stored_entries db.
Proof.
  intros Hr Hdb. unfold first_file_entries, file_entries.
  now rewrite (reading_db_name Hr), Hdb.
Qed.

Lemma storage_readable_reading w self md path :
  Reading self md path ->
  storage_readable w self ->
  exists db, sqlite3_connect w path = Some db.
Proof.
  intros Hr (path' & db & Hpath & Hdb). exists db.
  rewrite (reading_db_name Hr) in Hpath. now inversion Hpath.
Qed.

(** *** What [_execute_sql_query] does in read mode *)

(** A topic outside the catalog: nothing is connected to, nothing is run. *)
Lemma execute_sql_query_unknown w self md path q n :
  Reading self md path ->
  ~ in_catalog self (Some n) ->
  _execute_sql_query w self q (Some n) = ([], Ok []).
Proof.
  intros Hr Hcat. unfold _execute_sql_query. rewrite (reading_map Hr). cbn.
  destruct (dict_contains (topic_metadata_map_of md) n) eqn:E; [|reflexivity].
  exfalso. apply Hcat. now apply (in_catalog_reading _ _ _ (Some n) Hr).
Qed.

(** A readable file and a plain name (or none): the parsed statement is
    evaluated. *)
Lemma execute_sql_query_readable w self md path db q topic :
  Reading self md path ->
  in_catalog self topic ->
  plain_topic topic ->
  sqlite3_connect w path = Some db ->
  _execute_sql_query w self q topic
  = ([], Ok (map entry_of
               (select_rows db
                  {| sql_where := condition_for topic (sql_where q);
                     sql_order := sql_order q;
                     sql_limit := sql_limit q |}))).
Proof.
  intros Hr Hcat Hplain Hdb.
  apply (in_catalog_reading _ _ _ topic Hr) in Hcat.
  unfold _execute_sql_query, execute_fetchall.
  rewrite (reading_db_name Hr), (reading_map Hr).
  destruct topic as [n|]; simpl in Hcat, Hplain; cbn.
  - rewrite Hcat. cbn. rewrite Hdb, Hplain. cbn.
    now rewrite fetchall_entries.
  - rewrite Hdb. cbn. rewrite fetchall_entries. now destruct q.
Qed.

(** An unreadable file: the error of sqlite3 leaves the method. *)
Lemma execute_sql_query_unreadable w self md path q topic :
  Reading self md path ->
  in_catalog self topic ->
  sqlite3_connect w path = None ->
  _execute_sql_query w self q topic = ([], Raise Sqlite3Error).
Proof.
  intros Hr Hcat Hdb.
  apply (in_catalog_reading _ _ _ topic Hr) in Hcat.
  unfold _execute_sql_query, execute_fetchall.
  rewrite (reading_db_name Hr), (reading_map Hr).
  destruct topic as [n|]; simpl in Hcat; cbn.
  - rewrite Hcat. cbn. now rewrite Hdb.
  - now rewrite Hdb.
Qed.

(** *** Ordering *)

Lemma timestamp_leb_total d r1 r2 :
  timestamp_leb d r1 r2 = true \/ timestamp_leb d r2 r1 = true.
Proof. destruct d; simpl; rewrite !Z.leb_le; lia. Qed.

Lemma timestamp_leb_trans d r1 r2 r3 :
  timestamp_leb d r1 r2 = true -> timestamp_leb d r2 r3 = true ->
  timestamp_leb d r1 r3 = true.
Proof. destruct d; simpl; rewrite !Z.leb_le; lia. Qed.

Lemma order_by_perm d rows : Permutation (order_by d rows) rows.
Proof.
  destruct d; simpl.
  - apply sort_by_perm.
  - eapply perm_trans; [apply sort_by_perm|].
    apply Permutation_sym, Permutation_rev.
Qed.

Lemma order_by_sorted d rows :
  StronglySorted (fun a b => timestamp_leb d a b = true) (order_by d rows).
Proof.
  destruct d; unfold order_by.
  - apply (@sort_by_sorted _ (timestamp_leb ASC)
             (timestamp_leb_total ASC) (timestamp_leb_trans ASC)).
  - apply (@sort_by_sorted _ (timestamp_leb DESC)
             (timestamp_leb_total DESC) (timestamp_leb_trans DESC)).
Qed.

(** The first row in the requested order comes before every row. *)
Lemma hd_order_by d rows :
  match hd_error (order_by d rows) with
  | Some h => In h rows /\ forall x, In x rows -> timestamp_leb d h x = true
  | None => rows = []
  end.
Proof.
  pose proof (order_by_perm d rows) as Hperm.
  pose proof (order_by_sorted d rows) as Hs.
  destruct (order_by d rows) as [|h s]; simpl.
  - now apply Permutation_nil.
  - split; [apply (Permutation_in _ Hperm); now left|].
    intros x Hx. apply (Permutation_in _ (Permutation_sym Hperm)) in Hx.
    destruct Hx as [<-|Hx].
    + destruct (timestamp_leb_total d h h); assumption.
    + inversion Hs as [|? ? _ Hall]; subst.
      rewrite Forall_forall in Hall. now apply Hall.
Qed.

(** The single row of a [LIMIT 1] query: it satisfies the condition and
    comes first in the requested order among all rows that do. *)
Lemma first_row db c d :
  match hd_error (select_rows db {| sql_where := c; sql_order := d;
                                    sql_limit := Some 1%nat |}) with
  | Some r =>
      In r (messages_join_topics db) /\ holds c r = true /\
      forall r', In r' (messages_join_topics db) -> holds c r' = true ->
                 timestamp_leb d r r' = true
  | None =>
      forall r', In r' (messages_join_topics db) -> holds c r' = false
  end.
Proof.
  unfold select_rows. simpl.
  pose proof (hd_order_by d (filter (holds c) (messages_join_topics db)))
    as H.
  destruct (order_by d (filter (holds c) (messages_join_topics db)))
    as [|r rest]; simpl in *.
  - intros r' Hin. destruct (holds c r') eqn:E; [|reflexivity].
    assert (Hf : In r' (filter (holds c) (messages_join_topics db)))
      by (apply filter_In; auto).
    rewrite H in Hf. contradiction.
  - destruct H as [Hin Hmin]. apply filter_In in Hin. destruct Hin as [Hin Hc].
    repeat split; trivial.
    intros r' Hr' Hc'. apply Hmin. apply filter_In. auto.
Qed.

Lemma hd_error_map_entry (rows : list JoinedRow) :
  hd_error (map entry_of rows) = option_map entry_of (hd_error rows).
Proof. now destruct rows. Qed.

Lemma sorted_entries (rows : list JoinedRow) :
  StronglySorted (fun a b => timestamp_leb ASC a b = true) rows ->
  nondecreasing (map entry_of rows).
Proof.
  unfold nondecreasing. induction 1 as [|r rows Hs IH Hall]; simpl.
  - constructor.
  - constructor; [exact IH|].
    apply Forall_forall. intros e He. apply in_map_iff in He.
    destruct He as (r' & <- & Hr'). rewrite Forall_forall in Hall.
    specialize (Hall r' Hr'). simpl in *. now apply Z.leb_le.
Qed.

Lemma holds_entry_in_range topic t0 t1 r :
  holds (condition_for topic (And (TimestampGe t0) (TimestampLe t1))) r
  = entry_in_range topic t0 t1 (entry_of r).
Proof.
  unfold entry_in_range. destruct topic as [n|]; simpl;
    rewrite Z.geb_leb; [now rewrite andb_assoc|reflexivity].
Qed.

Lemma entry_in_range_iff topic t0 t1 e :
  entry_in_range topic t0 t1 e = true
  <-> on_topic topic e /\ t0 <= Entry.timestamp e <= t1.
Proof.
  unfold entry_in_range, on_topic.
  rewrite !andb_true_iff, !Z.leb_le.
  destruct topic as [n|]; [rewrite String.eqb_eq|]; tauto.
Qed.

Lemma map_filter_commute (A B : Type) (f : A -> B) (p : A -> bool)
    (q : B -> bool) (l : list A) :
  (forall x, p x = q (f x)) ->
  map f (filter p l) = filter q (map f l).
Proof.
  intros H. induction l as [|x l IH]; simpl; [reflexivity|].
  rewrite <- H. destruct (p x); simpl; now rewrite IH.
Qed.

Lemma permutation_of_empty_filter (A : Type) (p : A -> bool) (l s : list A) :
  Permutation l (filter p s) ->
  (forall x, In x s -> p x = false) ->
  l = [].
Proof.
  intros Hperm Hnone. destruct l as [|x l]; [reflexivity|].
  assert (Hin : In x (filter p s))
    by (apply (Permutation_in _ Hperm); now left).
  apply filter_In in Hin. destruct Hin as [Hin Hp].
  rewrite (Hnone x Hin) in Hp. discriminate.
Qed.

Lemma filter_split (A : Type) (p q r : A -> bool) (l : list A) :
  (forall x, p x = q x || r x) ->
  (forall x, q x && r x = false) ->
  Permutation (filter p l) (filter q l ++ filter r l).
Proof.
  intros Hor Hdisj. induction l as [|x l IH]; simpl; [constructor|].
  rewrite Hor. specialize (Hdisj x).
  destruct (q x), (r x); simpl in *; try discriminate.
  - now apply perm_skip.
  - eapply perm_trans; [apply perm_skip, IH|]. apply Permutation_middle.
  - exact IH.
Qed.

(** *** The point queries on a readable file *)

(** The head of a [LIMIT 1] query for a plain topic of the catalog (or for
    no topic), in terms of joined rows. *)
Lemma first_entry_readable w self md path db c d topic :
  Reading self md path ->
  in_catalog self topic ->
  plain_topic topic ->
  sqlite3_connect w path = Some db ->
  exists res,
    _execute_sql_query w self
      {| sql_where := c; sql_order := d; sql_limit := Some 1%nat |} topic
    = ([], Ok res) /\
    match hd_error res with
    | Some e =>
        exists r,
          e = entry_of r /\
          In r (messages_join_topics db) /\
          on_topic topic e /\ holds c r = true /\
          forall r',
            In r' (messages_join_topics db) ->
            on_topic topic (entry_of r') -> holds c r' = true ->
            timestamp_leb d r r' = true
    | None =>
        forall r',
          In r' (messages_join_topics db) ->
          on_topic topic (entry_of r') -> holds c r' = false
    end.
Proof.
  intros Hr Hcat Hplain Hdb.
  eexists. split;
    [apply (execute_sql_query_readable w self md path db _ topic
              Hr Hcat Hplain Hdb)|].
  simpl sql_where. simpl sql_order. simpl sql_limit.
  pose proof (first_row db (condition_for topic c) d) as H.
  rewrite hd_error_map_entry.
  destruct (hd_error _) as [r|]; simpl.
  - destruct H as (Hin & Hc & Hmin).
    apply holds_condition_for in Hc. destruct Hc as [Ht Hc].
    exists r. repeat split; trivial.
    intros r' Hin' Ht' Hc'. apply Hmin; [exact Hin'|].
    apply holds_condition_for. now split.
  - intros r' Hin' Ht'. specialize (H r' Hin').
    destruct (holds c r') eqn:Hc; [|reflexivity].
    rewrite <- H. symmetry. apply holds_condition_for. now split.
Qed.

Lemma get_entry_unknown w self md path t n :
  Reading self md path ->
  ~ in_catalog self (Some n) ->
  get_entry w self t (Some n) = ([Info "GET ENTRY"], Ok None).
Proof.
  intros Hr Hcat. unfold get_entry. rewrite (reading_reader Hr). cbv zeta.
  now rewrite (execute_sql_query_unknown w _ _ _ _ _ Hr Hcat).
Qed.

Lemma get_entry_unreadable w self md path t topic :
  Reading self md path ->
  in_catalog self topic ->
  sqlite3_connect w path = None ->
  get_entry w self t topic = ([Info "GET ENTRY"], Raise Sqlite3Error).
Proof.
  intros Hr Hcat Hdb. unfold get_entry. rewrite (reading_reader Hr).
  cbv zeta.
  now rewrite (execute_sql_query_unreadable w _ _ _ _ topic Hr Hcat Hdb).
Qed.

Lemma get_entry_readable w self md path db t topic :
  Reading self md path ->
  in_catalog self topic ->
  plain_topic topic ->
  sqlite3_connect w path = Some db ->
  exists r,
    get_entry w self t topic = ([Info "GET ENTRY"], Ok r) /\
    latest_at_or_before (stored_entries db) topic (nanoseconds t) r.
Proof.
  intros Hr Hcat Hplain Hdb.
  unfold get_entry. rewrite (reading_reader Hr). cbv zeta.
  destruct (first_entry_readable w self md path db
              (TimestampLe (nanoseconds t)) DESC topic Hr Hcat Hplain Hdb)
    as (res & Hres & Hhd).
  exists (hd_error res). rewrite Hres. split; [reflexivity|].
  unfold stored_entries.
  destruct (hd_error res) as [e|]; simpl.
  - destruct Hhd as (r & -> & Hin & Ht & Hc & Hmax). simpl in Hc.
    apply Z.leb_le in Hc. repeat split; trivial.
    + now apply in_map.
    + intros e' He' Ht' Hle. apply in_map_iff in He'.
      destruct He' as (r' & <- & Hr'). simpl in Hle.
      specialize (Hmax r' Hr' Ht'). simpl in Hmax.
      rewrite !Z.leb_le in Hmax. now apply Hmax.
  - intros e' He' Ht' Hle. apply in_map_iff in He'.
    destruct He' as (r' & <- & Hr'). simpl in Hle.
    specialize (Hhd r' Hr' Ht'). simpl in Hhd.
    apply Z.leb_gt in Hhd. lia.
Qed.

Lemma get_entry_after_unknown w self md path t n :
  Reading self md path ->
  ~ in_catalog self (Some n) ->
  get_entry_after w self t (Some n) = ([Info "GET ENTRY AFTER"], Ok None).
Proof.
  intros Hr Hcat. unfold get_entry_after. rewrite (reading_reader Hr).
  cbv zeta. now rewrite (execute_sql_query_unknown w _ _ _ _ _ Hr Hcat).
Qed.

Lemma get_entry_after_unreadable w self md path t topic :
  Reading self md path ->
  in_catalog self topic ->
  sqlite3_connect w path = None ->
  get_entry_after w self t topic
  = ([Info "GET ENTRY AFTER"], Raise Sqlite3Error).
Proof.
  intros Hr Hcat Hdb. unfold get_entry_after. rewrite (reading_reader Hr).
  cbv zeta.
  now rewrite (execute_sql_query_unreadable w _ _ _ _ topic Hr Hcat Hdb).
Qed.

Lemma get_entry_after_readable w self md path db t topic :
  Reading self md path ->
  in_catalog self topic ->
  plain_topic topic ->
  sqlite3_connect w path = Some db ->
  exists r,
    get_entry_after w self t topic = ([Info "GET ENTRY AFTER"], Ok r) /\
    earliest_after (stored_entries db) topic (nanoseconds t) r.
Proof.
  intros Hr Hcat Hplain Hdb.
  unfold get_entry_after. rewrite (reading_reader Hr). cbv zeta.
  destruct (first_entry_readable w self md path db
              (TimestampGt (nanoseconds t)) ASC topic Hr Hcat Hplain Hdb)
    as (res & Hres & Hhd).
  exists (hd_error res). rewrite Hres. split; [reflexivity|].
  unfold stored_entries.
  destruct (hd_error res) as [e|]; simpl.
  - destruct Hhd as (r & -> & Hin & Ht & Hc & Hmin). simpl in Hc.
    rewrite Z.gtb_ltb in Hc. apply Z.ltb_lt in Hc.
    repeat split; trivial.
    + now apply in_map.
    + simpl. lia.
    + intros e' He' Ht' Hgt. apply in_map_iff in He'.
      destruct He' as (r' & <- & Hr'). simpl in Hgt.
      specialize (Hmin r' Hr' Ht'). simpl in Hmin.
      rewrite Z.gtb_ltb, Z.ltb_lt, Z.leb_le in Hmin. apply Hmin. lia.
  - intros e' He' Ht' Hgt. apply in_map_iff in He'.
    destruct He' as (r' & <- & Hr'). simpl in Hgt.
    specialize (Hhd r' Hr' Ht'). simpl in Hhd.
    rewrite Z.gtb_ltb in Hhd. apply Z.ltb_ge in Hhd. lia.
Qed.







(* ------------------------------------------------------------------ *)
(** ** Range queries *)

Lemma get_entries_in_range_unknown w self md path t0 t1 n :
  Reading self md path ->
  ~ in_catalog self (Some n) ->
  get_entries_in_range w self t0 t1 (Some n)
  = ([Info "GET ENTRIES IN RANGE"], Ok (Some [])).
Proof.
  intros Hr Hcat. unfold get_entries_in_range. rewrite (reading_reader Hr).
  cbv zeta. now rewrite (execute_sql_query_unknown w _ _ _ _ _ Hr Hcat).
Qed.

Lemma get_entries_in_range_unreadable w self md path t0 t1 topic :
  Reading self md path ->
  in_catalog self topic ->
  sqlite3_connect w path = None ->
  get_entries_in_range w self t0 t1 topic
  = ([Info "GET ENTRIES IN RANGE"], Raise Sqlite3Error).
Proof.
  intros Hr Hcat Hdb. unfold get_entries_in_range.
  rewrite (reading_reader Hr). cbv zeta.
  now rewrite (execute_sql_query_unreadable w _ _ _ _ topic Hr Hcat Hdb).
Qed.

(** On a readable file, for a plain topic of the catalog or no topic: the
    matching entries of the file, in non-decreasing timestamp order. *)
Lemma get_entries_in_range_readable w self md path db t0 t1 topic :
  Reading self md path ->
  in_catalog self topic ->
  plain_topic topic ->
  sqlite3_connect w path = Some db ->
  exists l,
    get_entries_in_range w self t0 t1 topic
    = ([Info "GET ENTRIES IN RANGE"], Ok (Some l)) /\
    nondecreasing l /\
    Permutation l
      (filter (entry_in_range topic (nanoseconds t0) (nanoseconds t1))
              (stored_entries db)).
Proof.
  intros Hr Hcat Hplain Hdb.
  unfold get_entries_in_range. rewrite (reading_reader Hr). cbv zeta.
  rewrite (execute_sql_query_readable w self md path db _ topic
             Hr Hcat Hplain Hdb).
  eexists. split; [reflexivity|].
  unfold select_rows, stored_entries. simpl. split.
  - apply sorted_entries. apply (order_by_sorted ASC).
  - rewrite <- (map_filter_commute _ _ entry_of
                  (holds (condition_for topic
                            (And (TimestampGe (nanoseconds t0))
                                 (TimestampLe (nanoseconds t1)))))
                  (entry_in_range topic (nanoseconds t0) (nanoseconds t1)))
      by (intros r; apply holds_entry_in_range).
    apply Permutation_map, sort_by_perm.
Qed.

(** What a range query is in read mode, whenever it is run on a readable
    file or not run at all. *)
Lemma get_entries_in_range_cases w self md path t0 t1 topic :
  Reading self md path ->
  ~ in_catalog self topic \/ (plain_topic topic /\ storage_readable w self) ->
  exists l,
    get_entries_in_range w self t0 t1 topic
    = ([Info "GET ENTRIES IN RANGE"], Ok (Some l)) /\
    nondecreasing l /\
    ((~ in_catalog self topic /\ l = []) \/
     (in_catalog self topic /\
      Permutation l
        (filter (entry_in_range topic (nanoseconds t0) (nanoseconds t1))
                (first_file_entries w self)))).
Proof.
  intros Hr Hcase.
  destruct (in_catalog_dec self md path topic Hr) as [Hcat|Hcat].
  - destruct Hcase as [Hno|[Hplain Hread]]; [contradiction|].
    destruct (storage_readable_reading w self md path Hr Hread) as (db & Hdb).
    destruct (get_entries_in_range_readable w self md path db t0 t1 topic
                Hr Hcat Hplain Hdb) as (l & E & Hs & Hperm).
    exists l. split; [exact E|]. split; [exact Hs|]. right.
    split; [exact Hcat|].
    now rewrite (first_file_entries_reading w self md path db Hr Hdb).
  - destruct topic as [n|]; [|now contradiction Hcat].
    exists []. split;
      [apply (get_entries_in_range_unknown w self md path t0 t1 n Hr Hcat)|].
    split; [constructor|]. now left.
Qed.




(** C6. In read mode, for [t0 <= t1] and a topic name that is not one of
    [get_topics()], [get_entries_in_range] returns the empty list and
    raises nothing. *)
Theorem get_entries_in_range_unknown_topic
    (w : World) (bag_path : string) (self : Rosbag2)
    (t0 t1 : Time) (topic : string) (names : list string) :
  returns (__init__ w bag_path false) self ->
  returns (get_topics self) names ->
  ~ In topic names ->
  nanoseconds t0 <= nanoseconds t1 ->
  returns (get_entries_in_range w self t0 t1 (Some topic)) (Some []) /\
  forall e, ~ raises (get_entries_in_range w self t0 t1 (Some topic)) e.
Proof.
  intros Hinit Hnames Hout _.
  destruct (init_reading _ _ Hinit) as (md & path & Hr).
  assert (Hret : returns (get_entries_in_range w self t0 t1 (Some topic))
                         (Some [])).
  { unfold returns, get_entries_in_range. rewrite (reading_reader Hr).
    cbv zeta. rewrite (execute_sql_query_unknown w _ _ _ _ _ Hr);
      [reflexivity|].
    intros (names' & Hnames' & Hin).
    rewrite (returns_inj Hnames Hnames') in Hout. contradiction. }
  split; [exact Hret|]. intros e. now apply returns_not_raises with (Some []).
Qed.

Lemma get_entries_in_range_unknown_topic_witness :
  returns (__init__ example_world "bag" false) example_bag /\
  returns (get_topics example_bag) ["/a"; "/b"] /\
  ~ In "/c" ["/a"; "/b"] /\
  15 <= 25 /\
  returns (get_entries_in_range example_world example_bag
             (at_ns 15) (at_ns 25) (Some "/c")) (Some []) /\
  forall e,
    ~ raises (get_entries_in_range example_world example_bag
                (at_ns 15) (at_ns 25) (Some "/c")) e.
Proof.
  assert (Hout : ~ In "/c" ["/a"; "/b"])
    by (intros [H|[H|[]]]; discriminate H).
  split; [reflexivity|]. split; [reflexivity|]. split; [exact Hout|].
  split; [lia|].
  apply (get_entries_in_range_unknown_topic example_world "bag" example_bag
           (at_ns 15) (at_ns 25) "/c" ["/a"; "/b"]).
  - reflexivity.
  - reflexivity.
  - exact Hout.
  - simpl. lia.
Defined.

(* ------------------------------------------------------------------ *)
(** ** Retrieval on a handle opened for writing *)

(** C4, as the code has it: on a handle opened in write mode [get_entry],
    [get_entry_after] and [get_entries_in_range] all return [None],
    whatever the arguments and the store; none raises and none returns an
    entry. *)
Theorem recording_retrieval_returns_none
    (w : World) (bag_path : string) (self : Rosbag2)
    (t t' : Time) (topic : option string) :
  returns (__init__ w bag_path true) self ->
  returns (get_entry w self t topic) None /\
  returns (get_entry_after w self t topic) None /\
  returns (get_entries_in_range w self t t' topic) None.
Proof.
  intros Hinit. rewrite (init_recording (w := w) Hinit). now repeat split.
Qed.

Lemma recording_retrieval_returns_none_witness :
  returns (__init__ example_world "bag" true) (recording_handle "bag") /\
  returns (get_entry example_world (recording_handle "bag") (at_ns 20)
             (Some "/a")) None /\
  returns (get_entry_after example_world (recording_handle "bag") (at_ns 20)
             (Some "/a")) None /\
  returns (get_entries_in_range example_world (recording_handle "bag")
             (at_ns 20) (at_ns 25) (Some "/a")) None.
Proof.
  split; [reflexivity|].
  apply (recording_retrieval_returns_none example_world "bag"
           (recording_handle "bag") (at_ns 20) (at_ns 25) (Some "/a")).
  reflexivity.
Defined.

(** C4 as stated fails for the range query: in write mode
    [get_entries_in_range] returns [None], not an empty list. *)
Lemma recording_range_is_none_not_empty :
  returns (__init__ example_world "bag" true) (recording_handle "bag") /\
  returns (get_entries_in_range example_world (recording_handle "bag")
             (at_ns 15) (at_ns 25) None) None /\
  ~ returns (get_entries_in_range example_world (recording_handle "bag")
               (at_ns 15) (at_ns 25) None) (Some []).
Proof.
  split; [reflexivity|]. split; [reflexivity|]. intros H. discriminate H.
Qed.

(** C5, as the code has it: on a handle opened in write mode none of the
    three retrieval operations raises; each logs one warning naming the
    operation, "open for writing only, returning None", and nothing else,
    and returns [None]. *)
Theorem recording_retrieval_warns
    (w : World) (bag_path : string) (self : Rosbag2)
    (t t' : Time) (topic : option string) :
  returns (__init__ w bag_path true) self ->
  (forall e, ~ raises (get_entry w self t topic) e) /\
  (forall e, ~ raises (get_entry_after w self t topic) e) /\
  (forall e, ~ raises (get_entries_in_range w self t t' topic) e) /\
  get_entry w self t topic
  = ([Warn "get_entry - open for writing only, returning None"], Ok None) /\
  get_entry_after w self t topic
  = ([Warn "get_entry_after - open for writing only, returning None"],
     Ok None) /\
  get_entries_in_range w self t t' topic
  = ([Warn "get_entries_in_range - open for writing only, returning None"],
     Ok None).
Proof.
  intros Hinit. rewrite (init_recording (w := w) Hinit).
  repeat split; intros e He; discriminate He.
Qed.

Lemma recording_retrieval_warns_witness :
  returns (__init__ example_world "bag" true) (recording_handle "bag") /\
  (forall e,
      ~ raises (get_entry example_world (recording_handle "bag") (at_ns 20)
                  None) e) /\
  (forall e,
      ~ raises (get_entry_after example_world (recording_handle "bag")
                  (at_ns 20) None) e) /\
  (forall e,
      ~ raises (get_entries_in_range example_world (recording_handle "bag")
                  (at_ns 20) (at_ns 25) None) e) /\
  get_entry example_world (recording_handle "bag") (at_ns 20) None
  = ([Warn "get_entry - open for writing only, returning None"], Ok None) /\
  get_entry_after example_world (recording_handle "bag") (at_ns 20) None
  = ([Warn "get_entry_after - open for writing only, returning None"],
     Ok None) /\
  get_entries_in_range example_world (recording_handle "bag")
    (at_ns 20) (at_ns 25) None
  = ([Warn "get_entries_in_range - open for writing only, returning None"],
     Ok None).
Proof.
  split; [reflexivity|].
  apply (recording_retrieval_warns example_world "bag"
           (recording_handle "bag") (at_ns 20) (at_ns 25) None).
  reflexivity.
Defined.

(** C5 as stated fails: in write mode no retrieval operation fails, with
    a wrong-mode error or any other; each returns [None]. *)
Lemma recording_retrieval_does_not_fail :
  returns (__init__ example_world "bag" true) (recording_handle "bag") /\
  ~ (exists e,
        raises (get_entry example_world (recording_handle "bag") (at_ns 20)
                  None) e) /\
  ~ (exists e,
        raises (get_entry_after example_world (recording_handle "bag")
                  (at_ns 20) None) e) /\
  ~ (exists e,
        raises (get_entries_in_range example_world (recording_handle "bag")
                  (at_ns 20) (at_ns 25) None) e).
Proof.
  split; [reflexivity|].
  repeat split; intros [e He]; discriminate He.
Qed.

(* ------------------------------------------------------------------ *)
(** ** The catalog and the metadata it is built from *)

Lemma string_compare_refl (s : string) : String.compare s s = Eq.
Proof.
  induction s as [|c s IH]; simpl; [reflexivity|].
  unfold Ascii.compare. now rewrite N.compare_refl.
Qed.

Lemma string_compare_lt_trans (a b c : string) :
  String.compare a b = Lt -> String.compare b c = Lt ->
  String.compare a c = Lt.
Proof.
  revert b c. induction a as [|x a IH]; intros [|y b] [|z c]; simpl;
    try discriminate; try reflexivity.
  unfold Ascii.compare.
  destruct (N.compare_spec (N_of_ascii x) (N_of_ascii y)) as [Exy|Lxy|Gxy];
    try discriminate;
    destruct (N.compare_spec (N_of_ascii y) (N_of_ascii z)) as [Eyz|Lyz|Gyz];
    try discriminate; intros H1 H2.
  - rewrite Exy, Eyz, N.compare_refl. now apply IH with b.
  - rewrite Exy. now apply N.compare_lt_iff in Lyz as ->.
  - rewrite <- Eyz. now apply N.compare_lt_iff in Lxy as ->.
  - assert (L : (N_of_ascii x < N_of_ascii z)%N) by lia.
    now apply N.compare_lt_iff in L as ->.
Qed.

Lemma string_leb_trans (a b c : string) :
  String.leb a b = true -> String.leb b c = true -> String.leb a c = true.
Proof.
  unfold String.leb.
  destruct (String.compare a b) eqn:Eab; try discriminate;
    destruct (String.compare b c) eqn:Ebc; try discriminate; intros _ _.
  - apply String.compare_eq_iff in Eab, Ebc. subst.
    now rewrite string_compare_refl.
  - apply String.compare_eq_iff in Eab. subst. now rewrite Ebc.
  - apply String.compare_eq_iff in Ebc. subst. now rewrite Eab.
  - now rewrite (string_compare_lt_trans a b c Eab Ebc).
Qed.

Lemma dict_get_set (V : Type) (d : Dict V) (k k' : string) (v : V) :
  dict_get (dict_set d k v) k'
  = if String.eqb k' k then Some v else dict_get d k'.
Proof.
  induction d as [|[k0 v0] d IH]; simpl.
  - reflexivity.
  - destruct (String.eqb_spec k k0) as [->|Hne]; simpl.
    + now destruct (String.eqb k' k0).
    + rewrite IH. destruct (String.eqb_spec k' k0) as [->|Hne'];
        [|reflexivity].
      destruct (String.eqb_spec k0 k) as [E|_]; [congruence|reflexivity].
Qed.

Lemma find_snoc (A : Type) (f : A -> bool) (l : list A) (x : A) :
  find f (l ++ [x])
  = match find f l with
    | Some y => Some y
    | None => if f x then Some x else None
    end.
Proof.
  induction l as [|y l IH]; simpl; [reflexivity|].
  now destruct (f y).
Qed.

(** Lookup in the dict comprehension: the last listed metadata wins. *)
Lemma dict_get_comprehension (infos : list TopicInformation)
    (d : Dict TopicMetadata) (t : string) :
  dict_get
    (fold_left
       (fun d t_info =>
          dict_set d (name (topic_metadata t_info)) (topic_metadata t_info))
       infos d) t
  = match last_listed infos t with
    | Some m => Some m
    | None => dict_get d t
    end.
Proof.
  unfold last_listed. revert d.
  induction infos as [|i infos IH]; intros d; simpl; [reflexivity|].
  rewrite IH, find_snoc, dict_get_set.
  destruct (find _ (rev infos)); simpl; [reflexivity|].
  rewrite (String.eqb_sym t).
  now destruct (String.eqb (name (topic_metadata i)) t).
Qed.

Lemma last_listed_some (infos : list TopicInformation) (t : string) :
  last_listed infos t <> None
  <-> exists i, In i infos /\ name (topic_metadata i) = t.
Proof.
  unfold last_listed. split.
  - destruct (find _ (rev infos)) as [i|] eqn:E; [intros _|now intros []].
    apply find_some in E. destruct E as [Hin Hn].
    exists i. split; [now apply in_rev|now apply String.eqb_eq].
  - intros (i & Hin & Hn).
    destruct (find _ (rev infos)) as [j|] eqn:E; [discriminate|].
    apply in_rev in Hin.
    apply (find_none _ _ E) in Hin. apply String.eqb_neq in Hin. congruence.
Qed.

(** X1. In read mode [get_topics()] is sorted in string order without
    repetition, and holds exactly the names of the topics listed in the
    metadata the reader returned. *)
Theorem get_topics_sorted_names_of_metadata
    (w : World) (bag_path : string) (self : Rosbag2) :
  returns (__init__ w bag_path false) self ->
  exists md names,
    rosbag2_open w bag_path = Some md /\
    returns (get_topics self) names /\
    StronglySorted (fun a b => String.leb a b = true) names /\
    NoDup names /\
    forall t,
      In t names
      <-> exists i, In i (topics_with_message_count md) /\
                    name (topic_metadata i) = t.
Proof.
  intros Hinit. destruct (init_metadata _ _ Hinit) as (md & Hopen & Hmd).
  destruct (init_reading _ _ Hinit) as (md' & path & Hr).
  assert (md' = md) by (pose proof (reading_metadata Hr); congruence).
  subst md'.
  exists md, (sorted (dict_keys (topic_metadata_map_of md))).
  split; [exact Hopen|]. unfold returns. rewrite (get_topics_reading Hr).
  split; [reflexivity|]. split; [|split].
  - apply (@sort_by_sorted _ String.leb String.leb_total string_leb_trans).
  - apply sort_by_nodup. apply (topic_metadata_map_ok md).
  - intros t. rewrite in_sorted_keys. unfold topic_metadata_map_of.
    rewrite dict_get_comprehension. simpl.
    rewrite <- last_listed_some.
    destruct (last_listed (topics_with_message_count md) t);
      split; congruence.
Qed.

Lemma get_topics_sorted_names_of_metadata_witness :
  returns (__init__ example_world "bag" false) example_bag /\
  exists md names,
    rosbag2_open example_world "bag" = Some md /\
    returns (get_topics example_bag) names /\
    StronglySorted (fun a b => String.leb a b = true) names /\
    NoDup names /\
    forall t,
      In t names
      <-> exists i, In i (topics_with_message_count md) /\
                    name (topic_metadata i) = t.
Proof.
  split; [reflexivity|].
  apply (get_topics_sorted_names_of_metadata example_world "bag" example_bag).
  reflexivity.
Defined.

(** X2. In read mode [get_topic_metadata(t)] is the metadata of the last
    topic named [t] in the reader's list (a later duplicate overrides an
    earlier one), and [None] when the list has no topic of that name. *)
Theorem get_topic_metadata_last_listed
    (w : World) (bag_path : string) (self : Rosbag2) (t : string) :
  returns (__init__ w bag_path false) self ->
  exists md,
    rosbag2_open w bag_path = Some md /\
    returns (get_topic_metadata self t)
            (last_listed (topics_with_message_count md) t) /\
    returns (get_topic_type self t)
            (option_map type (last_listed (topics_with_message_count md) t)).
Proof.
  intros Hinit. destruct (init_metadata _ _ Hinit) as (md & Hopen & Hmd).
  destruct (init_reading _ _ Hinit) as (md' & path & Hr).
  assert (md' = md) by (pose proof (reading_metadata Hr); congruence).
  subst md'. exists md. split; [exact Hopen|]. unfold returns.
  rewrite (get_topic_metadata_reading t Hr), (get_topic_type_reading t Hr).
  unfold topic_metadata_map_of. rewrite dict_get_comprehension. simpl.
  now destruct (last_listed (topics_with_message_count md) t).
Qed.

Lemma get_topic_metadata_last_listed_witness :
  returns (__init__ example_world "bag" false) example_bag /\
  exists md,
    rosbag2_open example_world "bag" = Some md /\
    returns (get_topic_metadata example_bag "/a")
            (last_listed (topics_with_message_count md) "/a") /\
    returns (get_topic_type example_bag "/a")
            (option_map type (last_listed (topics_with_message_count md) "/a")).
Proof.
  split; [reflexivity|].
  apply (get_topic_metadata_last_listed example_world "bag" example_bag "/a").
  reflexivity.
Defined.

(* ------------------------------------------------------------------ *)
(** ** Looking a type up in the groups *)

Lemma dict_get_setdefault_append (g : Dict (list string)) (k x ty : string) :
  dict_get (setdefault_append g k x) ty
  = if String.eqb ty k
    then Some (match dict_get g k with Some l => l | None => [] end ++ [x])
    else dict_get g ty.
Proof.
  induction g as [|[k0 l0] g IH]; simpl.
  - reflexivity.
  - destruct (String.eqb_spec k k0) as [->|Hne]; simpl.
    + now destruct (String.eqb ty k0).
    + rewrite IH. destruct (String.eqb_spec ty k0) as [->|Hne'].
      * destruct (String.eqb_spec k0 k) as [E|_]; [congruence|reflexivity].
      * reflexivity.
Qed.

Lemma dict_get_grouping (items : list (string * TopicMetadata))
    (g : Dict (list string)) (ty : string) :
  dict_get
    (fold_left
       (fun topics_by_type item =>
          setdefault_append topics_by_type (type (snd item)) (fst item))
       items g) ty
  = match names_of_type items ty with
    | [] => dict_get g ty
    | n :: ns =>
        Some (match dict_get g ty with Some l => l | None => [] end
              ++ n :: ns)
    end.
Proof.
  unfold names_of_type. revert g.
  induction items as [|[n v] items IH]; intros g; simpl; [reflexivity|].
  rewrite IH, dict_get_setdefault_append. rewrite (String.eqb_sym ty).
  destruct (String.eqb_spec (type v) ty) as [E|Hne]; simpl.
  - subst ty.
    destruct (map fst _) as [|n' ns]; [reflexivity|].
    now rewrite <- app_assoc.
  - reflexivity.
Qed.

(** X3. In read mode [get_topics_by_type()[ty]] is the list of the catalog
    names whose type is [ty], in the insertion order of the catalog; a type
    that no topic has is not a key. *)
Theorem get_topics_by_type_lookup
    (w : World) (bag_path : string) (self : Rosbag2) :
  returns (__init__ w bag_path false) self ->
  exists catalog groups,
    topic_metadata_map self = Some catalog /\
    returns (get_topics_by_type self) groups /\
    forall ty,
      dict_get groups ty
      = match names_of_type catalog ty with
        | [] => None
        | members => Some members
        end.
Proof.
  intros Hinit. destruct (init_reading _ _ Hinit) as (md & path & Hr).
  exists (topic_metadata_map_of md). eexists.
  split; [exact (reading_map Hr)|].
  unfold returns, get_topics_by_type. rewrite (reading_map Hr). cbn.
  split; [reflexivity|].
  intros ty. unfold dict_items. rewrite dict_get_grouping. simpl.
  now destruct (names_of_type (topic_metadata_map_of md) ty).
Qed.

Lemma get_topics_by_type_lookup_witness :
  returns (__init__ example_world "bag" false) example_bag /\
  exists catalog groups,
    topic_metadata_map example_bag = Some catalog /\
    returns (get_topics_by_type example_bag) groups /\
    forall ty,
      dict_get groups ty
      = match names_of_type catalog ty with
        | [] => None
        | members => Some members
        end.
Proof.
  split; [reflexivity|].
  apply (get_topics_by_type_lookup example_world "bag" example_bag).
  reflexivity.
Defined.

(* ------------------------------------------------------------------ *)
(** ** Retrieval in read mode, in terms of the stored entries *)

(** What a point query returned, when it returned: either the topic is
    outside the catalog and the answer is [None], or the file was readable
    and the answer is the latest entry at or before [t]. *)
Lemma get_entry_returned w self md path t topic r :
  Reading self md path ->
  plain_topic topic ->
  returns (get_entry w self t topic) r ->
  (~ in_catalog self topic /\ r = None) \/
  (in_catalog self topic /\
   exists db,
     sqlite3_connect w path = Some db /\
     latest_at_or_before (stored_entries db) topic (nanoseconds t) r).
Proof.
  intros Hr Hplain Hret. unfold returns in Hret.
  destruct (in_catalog_dec self md path topic Hr) as [Hcat|Hcat].
  - right. split; [exact Hcat|].
    destruct (sqlite3_connect w path) as [db|] eqn:Hdb.
    + exists db. split; [reflexivity|].
      destruct (get_entry_readable w self md path db t topic
                  Hr Hcat Hplain Hdb) as (r' & E & Hspec).
      rewrite E in Hret. simpl in Hret. now inversion Hret; subst.
    + rewrite (get_entry_unreadable w self md path t topic Hr Hcat Hdb)
        in Hret. discriminate.
  - left. split; [exact Hcat|].
    destruct topic as [n|]; [|now contradiction Hcat].
    rewrite (get_entry_unknown w self md path t n Hr Hcat) in Hret.
    simpl in Hret. now inversion Hret.
Qed.

Lemma get_entry_after_returned w self md path t topic r :
  Reading self md path ->
  plain_topic topic ->
  returns (get_entry_after w self t topic) r ->
  (~ in_catalog self topic /\ r = None) \/
  (in_catalog self topic /\
   exists db,
     sqlite3_connect w path = Some db /\
     earliest_after (stored_entries db) topic (nanoseconds t) r).
Proof.
  intros Hr Hplain Hret. unfold returns in Hret.
  destruct (in_catalog_dec self md path topic Hr) as [Hcat|Hcat].
  - right. split; [exact Hcat|].
    destruct (sqlite3_connect w path) as [db|] eqn:Hdb.
    + exists db. split; [reflexivity|].
      destruct (get_entry_after_readable w self md path db t topic
                  Hr Hcat Hplain Hdb) as (r' & E & Hspec).
      rewrite E in Hret. simpl in Hret. now inversion Hret; subst.
    + rewrite (get_entry_after_unreadable w self md path t topic
                 Hr Hcat Hdb) in Hret. discriminate.
  - left. split; [exact Hcat|].
    destruct topic as [n|]; [|now contradiction Hcat].
    rewrite (get_entry_after_unknown w self md path t n Hr Hcat) in Hret.
    simpl in Hret. now inversion Hret.
Qed.

(** X4. In read mode, on a readable storage file and for no topic or a
    plain topic name of the catalog, [get_entries_in_range(t0, t1, topic)]
    returns every entry of the file the handle queries that lies on the
    topic with [t0 <= timestamp <= t1], and nothing else, each as often as
    it is stored. *)
Theorem get_entries_in_range_complete
    (w : World) (bag_path : string) (self : Rosbag2)
    (t0 t1 : Time) (topic : option string) :
  returns (__init__ w bag_path false) self ->
  in_catalog self topic ->
  plain_topic topic ->
  storage_readable w self ->
  exists l,
    returns (get_entries_in_range w self t0 t1 topic) (Some l) /\
    Permutation l
      (filter (entry_in_range topic (nanoseconds t0) (nanoseconds t1))
              (first_file_entries w self)).
Proof.
  intros Hinit Hcat Hplain Hread.
  destruct (init_reading _ _ Hinit) as (md & path & Hr).
  destruct (get_entries_in_range_cases w self md path t0 t1 topic Hr
              (or_intror (conj Hplain Hread)))
    as (l & E & _ & [[Hno _]|[_ Hperm]]); [contradiction|].
  exists l. unfold returns. rewrite E. now split.
Qed.

Lemma get_entries_in_range_complete_witness :
  returns (__init__ example_world "bag" false) example_bag /\
  in_catalog example_bag (Some "/a") /\
  plain_topic (Some "/a") /\
  storage_readable example_world example_bag /\
  exists l,
    returns (get_entries_in_range example_world example_bag
               (at_ns 15) (at_ns 25) (Some "/a")) (Some l) /\
    Permutation l
      (filter (entry_in_range (Some "/a") 15 25)
              (first_file_entries example_world example_bag)).
Proof.
  assert (Hcat : in_catalog example_bag (Some "/a")).
  { exists ["/a"; "/b"]. split; [reflexivity|]. now left. }
  assert (Hread : storage_readable example_world example_bag).
  { exists "bag/bag_0.db3", example_db. split; reflexivity. }
  split; [reflexivity|]. split; [exact Hcat|]. split; [reflexivity|].
  split; [exact Hread|].
  apply (get_entries_in_range_complete example_world "bag" example_bag
           (at_ns 15) (at_ns 25) (Some "/a"));
    [reflexivity|exact Hcat|reflexivity|exact Hread].
Defined.

(** X5. In read mode, for no topic or a plain topic name: when
    [get_entry(t, topic)] returns [b] and [get_entry_after(t, topic)]
    returns [a], then [b.timestamp <= t < a.timestamp] and no entry of the
    file the handle queries lies on the topic with a timestamp strictly
    between the two. *)
Theorem no_entry_between_neighbours
    (w : World) (bag_path : string) (self : Rosbag2)
    (t : Time) (topic : option string) (b a : Entry.t) :
  returns (__init__ w bag_path false) self ->
  plain_topic topic ->
  returns (get_entry w self t topic) (Some b) ->
  returns (get_entry_after w self t topic) (Some a) ->
  Entry.timestamp b <= nanoseconds t < Entry.timestamp a /\
  forall e,
    In e (first_file_entries w self) -> on_topic topic e ->
    Entry.timestamp e <= Entry.timestamp b \/
    Entry.timestamp a <= Entry.timestamp e.
Proof.
  intros Hinit Hplain Hb Ha.
  destruct (init_reading _ _ Hinit) as (md & path & Hr).
  destruct (get_entry_returned w self md path t topic (Some b) Hr Hplain Hb)
    as [[_ Hnone]|[_ (db & Hdb & (_ & _ & Hble & Hbmax))]]; [discriminate|].
  destruct (get_entry_after_returned w self md path t topic (Some a)
              Hr Hplain Ha)
    as [[_ Hnone]|[_ (db' & Hdb' & (_ & _ & Hagt & Hamin))]]; [discriminate|].
  assert (db' = db) by congruence. subst db'.
  rewrite (first_file_entries_reading w self md path db Hr Hdb).
  split; [lia|].
  intros e He Ht.
  destruct (Z_le_gt_dec (Entry.timestamp e) (nanoseconds t)) as [Hle|Hgt].
  - left. now apply Hbmax.
  - right. now apply Hamin.
Qed.

Lemma no_entry_between_neighbours_witness :
  returns (__init__ example_world "bag" false) example_bag /\
  plain_topic (Some "/a") /\
  returns (get_entry example_world example_bag (at_ns 25) (Some "/a"))
          (Some (Entry.make "/a" [] 20)) /\
  returns (get_entry_after example_world example_bag (at_ns 25) (Some "/a"))
          (Some (Entry.make "/a" [] 30)) /\
  (20 <= 25 < 30 /\
   forall e,
     In e (first_file_entries example_world example_bag) ->
     on_topic (Some "/a") e ->
     Entry.timestamp e <= 20 \/ 30 <= Entry.timestamp e).
Proof.
  split; [reflexivity|]. split; [reflexivity|]. split; [reflexivity|].
  split; [reflexivity|].
  apply (no_entry_between_neighbours example_world "bag" example_bag
           (at_ns 25) (Some "/a")
           (Entry.make "/a" [] 20) (Entry.make "/a" [] 30));
    reflexivity.
Defined.

(** X6. In read mode, for no topic or a plain topic name, [get_entry] is
    monotone in the timestamp: if it returns an entry for [t] and
    [t <= t'], it returns an entry for [t'] too, and one that is not
    earlier. *)
Theorem get_entry_monotone
    (w : World) (bag_path : string) (self : Rosbag2)
    (t t' : Time) (topic : option string) (e : Entry.t) :
  returns (__init__ w bag_path false) self ->
  plain_topic topic ->
  nanoseconds t <= nanoseconds t' ->
  returns (get_entry w self t topic) (Some e) ->
  exists e',
    returns (get_entry w self t' topic) (Some e') /\
    Entry.timestamp e <= Entry.timestamp e'.
Proof.
  intros Hinit Hplain Hle He.
  destruct (init_reading _ _ Hinit) as (md & path & Hr).
  destruct (get_entry_returned w self md path t topic (Some e) Hr Hplain He)
    as [[_ Hnone]|[Hcat (db & Hdb & (Hin & Ht & Hts & _))]]; [discriminate|].
  destruct (get_entry_readable w self md path db t' topic Hr Hcat Hplain Hdb)
    as (r' & E' & Hspec').
  unfold returns. rewrite E'. simpl.
  destruct r' as [e'|]; simpl in Hspec'.
  - exists e'. split; [reflexivity|].
    destruct Hspec' as (_ & _ & _ & Hmax). apply Hmax; trivial. lia.
  - exfalso. apply (Hspec' e Hin Ht). lia.
Qed.

Lemma get_entry_monotone_witness :
  returns (__init__ example_world "bag" false) example_bag /\
  plain_topic (Some "/a") /\
  10 <= 25 /\
  returns (get_entry example_world example_bag (at_ns 10) (Some "/a"))
          (Some (Entry.make "/a" [] 10)) /\
  exists e',
    returns (get_entry example_world example_bag (at_ns 25) (Some "/a"))
            (Some e') /\
    10 <= Entry.timestamp e'.
Proof.
  split; [reflexivity|]. split; [reflexivity|]. split; [lia|].
  split; [reflexivity|].
  apply (get_entry_monotone example_world "bag" example_bag
           (at_ns 10) (at_ns 25) (Some "/a") (Entry.make "/a" [] 10)).
  - reflexivity.
  - reflexivity.
  - simpl. lia.
  - reflexivity.
Defined.

(** X7. In read mode, for no topic or a plain topic name, the point query
    agrees with the range query: when [get_entry(t, topic)] returns [None]
    every range ending at [t] is empty; when it returns an entry [e], every
    range from at most [e.timestamp] to [t] contains [e], and no entry of
    that range is later than [e]. *)
Theorem get_entry_agrees_with_range
    (w : World) (bag_path : string) (self : Rosbag2)
    (t t0 : Time) (topic : option string) (r : option Entry.t) :
  returns (__init__ w bag_path false) self ->
  plain_topic topic ->
  returns (get_entry w self t topic) r ->
  exists l,
    returns (get_entries_in_range w self t0 t topic) (Some l) /\
    match r with
    | None => l = []
    | Some e =>
        nanoseconds t0 <= Entry.timestamp e ->
        In e l /\
        forall e', In e' l -> Entry.timestamp e' <= Entry.timestamp e
    end.
Proof.
  intros Hinit Hplain Hret.
  destruct (init_reading _ _ Hinit) as (md & path & Hr).
  destruct (get_entry_returned w self md path t topic r Hr Hplain Hret)
    as [[Hno ->]|[Hcat (db & Hdb & Hspec)]].
  - destruct topic as [n|]; [|now contradiction Hno].
    exists []. unfold returns.
    now rewrite (get_entries_in_range_unknown w self md path t0 t n Hr Hno).
  - destruct (get_entries_in_range_readable w self md path db t0 t topic
                Hr Hcat Hplain Hdb) as (l & E & _ & Hperm).
    exists l. unfold returns. rewrite E. split; [reflexivity|].
    destruct r as [e|]; simpl in Hspec.
    + destruct Hspec as (Hin & Ht & Hts & Hmax). intros Hlo. split.
      * apply (Permutation_in _ (Permutation_sym Hperm)).
        apply filter_In. split; [exact Hin|].
        apply entry_in_range_iff. split; [exact Ht|lia].
      * intros e' He'. apply (Permutation_in _ Hperm) in He'.
        apply filter_In in He'. destruct He' as [He' Hrange].
        apply entry_in_range_iff in Hrange. destruct Hrange as [Ht' Hb].
        apply Hmax; trivial. lia.
    + apply (permutation_of_empty_filter _ _ _ _ Hperm).
      intros x Hx.
      destruct (entry_in_range topic (nanoseconds t0) (nanoseconds t) x)
        eqn:Ex; [|reflexivity].
      apply entry_in_range_iff in Ex. destruct Ex as [Ht' Hb].
      exfalso. apply (Hspec x Hx Ht'). lia.
Qed.

Lemma get_entry_agrees_with_range_witness :
  returns (__init__ example_world "bag" false) example_bag /\
  plain_topic (Some "/a") /\
  returns (get_entry example_world example_bag (at_ns 25) (Some "/a"))
          (Some (Entry.make "/a" [] 20)) /\
  exists l,
    returns (get_entries_in_range example_world example_bag
               (at_ns 15) (at_ns 25) (Some "/a")) (Some l) /\
    (15 <= 20 ->
     In (Entry.make "/a" [] 20) l /\
     forall e', In e' l -> Entry.timestamp e' <= 20).
Proof.
  split; [reflexivity|]. split; [reflexivity|]. split; [reflexivity|].
  apply (get_entry_agrees_with_range example_world "bag" example_bag
           (at_ns 25) (at_ns 15) (Some "/a")
           (Some (Entry.make "/a" [] 20)));
    reflexivity.
Defined.

(** X8. In read mode, for a topic outside the catalog, or for a plain
    topic name (or none) on a readable storage file, a range can be read
    in two pages: for [t0 - 1 <= t1 <= t2] the entries of [[t0, t2]] are
    those of [[t0, t1]] together with those of [[t1 + 1, t2]], none lost
    and none repeated. *)
Theorem get_entries_in_range_split
    (w : World) (bag_path : string) (self : Rosbag2)
    (t0 t1 t2 : Time) (topic : option string) :
  returns (__init__ w bag_path false) self ->
  ~ in_catalog self topic \/ (plain_topic topic /\ storage_readable w self) ->
  nanoseconds t0 - 1 <= nanoseconds t1 <= nanoseconds t2 ->
  exists first_page second_page whole,
    returns (get_entries_in_range w self t0 t1 topic) (Some first_page) /\
    returns (get_entries_in_range w self
               {| nanoseconds := nanoseconds t1 + 1 |} t2 topic)
            (Some second_page) /\
    returns (get_entries_in_range w self t0 t2 topic) (Some whole) /\
    Permutation whole (first_page ++ second_page).
Proof.
  intros Hinit Hcase Hord.
  destruct (init_reading _ _ Hinit) as (md & path & Hr).
  destruct (get_entries_in_range_cases w self md path t0 t1 topic Hr Hcase)
    as (l01 & E01 & _ & H01).
  destruct (get_entries_in_range_cases w self md path
              {| nanoseconds := nanoseconds t1 + 1 |} t2 topic Hr Hcase)
    as (l12 & E12 & _ & H12).
  destruct (get_entries_in_range_cases w self md path t0 t2 topic Hr Hcase)
    as (l02 & E02 & _ & H02).
  exists l01, l12, l02. unfold returns. rewrite E01, E12, E02.
  repeat split.
  destruct H02 as [[Hno ->]|[Hcat P02]].
  - destruct H01 as [[_ ->]|[Hcat _]]; [|contradiction].
    destruct H12 as [[_ ->]|[Hcat _]]; [|contradiction]. constructor.
  - destruct H01 as [[Hno _]|[_ P01]]; [contradiction|].
    destruct H12 as [[Hno _]|[_ P12]]; [contradiction|].
    eapply perm_trans; [exact P02|].
    eapply perm_trans;
      [|apply Permutation_app; apply Permutation_sym; eassumption].
    simpl. apply filter_split; intros e; unfold entry_in_range;
      destruct (match topic with
                | Some n => String.eqb (Entry.topic e) n
                | None => true
                end); simpl; lia.
Qed.

Lemma get_entries_in_range_split_witness :
  returns (__init__ example_world "bag" false) example_bag /\
  (~ in_catalog example_bag (Some "/a") \/
   (plain_topic (Some "/a") /\ storage_readable example_world example_bag)) /\
  10 - 1 <= 20 <= 30 /\
  exists first_page second_page whole,
    returns (get_entries_in_range example_world example_bag
               (at_ns 10) (at_ns 20) (Some "/a")) (Some first_page) /\
    returns (get_entries_in_range example_world example_bag
               {| nanoseconds := 20 + 1 |} (at_ns 30) (Some "/a"))
            (Some second_page) /\
    returns (get_entries_in_range example_world example_bag
               (at_ns 10) (at_ns 30) (Some "/a")) (Some whole) /\
    Permutation whole (first_page ++ second_page).
Proof.
  assert (Hcase : ~ in_catalog example_bag (Some "/a") \/
                  (plain_topic (Some "/a") /\
                   storage_readable example_world example_bag)).
  { right. split; [reflexivity|].
    exists "bag/bag_0.db3", example_db. split; reflexivity. }
  split; [reflexivity|]. split; [exact Hcase|]. split; [lia|].
  apply (get_entries_in_range_split example_world "bag" example_bag
           (at_ns 10) (at_ns 20) (at_ns 30) (Some "/a")).
  - reflexivity.
  - exact Hcase.
  - simpl. lia.
Defined.

(* ------------------------------------------------------------------ *)
(** ** Metadata accessors and deserialization *)

Lemma returns_bind (A B : Type) (m : M A) (k : A -> M B) (a : A) (b : B) :
  returns m a -> returns (k a) b -> returns (bind m k) b.
Proof.
  unfold returns, bind. destruct m as [out r]. simpl. intros ->.
  destruct (k a) as [out' r']. simpl. now intros ->.
Qed.

Lemma raises_bind (A B : Type) (m : M A) (k : A -> M B) (a : A)
    (e : Exception) :
  returns m a -> raises (k a) e -> raises (bind m k) e.
Proof.
  unfold returns, raises, bind. destruct m as [out r]. simpl. intros ->.
  destruct (k a) as [out' r']. simpl. now intros ->.
Qed.

(** X10. On a handle opened in write mode the metadata was never read:
    [size], [get_earliest_timestamp] and [get_latest_timestamp] raise
    [AttributeError] (the last two after their log line, and nothing is
    printed), and so does [deserialize_entry] for every entry, before the
    codec is consulted. *)
Theorem recording_accessors_raise
    (w : World) (bag_path : string) (self : Rosbag2)
    (MsgType Message : Type)
    (get_message : option string -> M MsgType)
    (deserialize_message : list Byte.byte -> MsgType -> M Message)
    (entry : Entry.t) :
  returns (__init__ w bag_path true) self ->
  size self = ([], Raise (AttributeError "metadata")) /\
  get_earliest_timestamp self
  = ([Info "GET START"], Raise (AttributeError "metadata")) /\
  get_latest_timestamp self
  = ([Info "GET END"], Raise (AttributeError "metadata")) /\
  deserialize_entry get_message deserialize_message self entry
  = ([], Raise (AttributeError "topic_metadata_map")).
Proof.
  intros Hinit. rewrite (init_recording (w := w) Hinit). now repeat split.
Qed.

Lemma recording_accessors_raise_witness :
  returns (__init__ example_world "bag" true) (recording_handle "bag") /\
  size (recording_handle "bag") = ([], Raise (AttributeError "metadata")) /\
  get_earliest_timestamp (recording_handle "bag")
  = ([Info "GET START"], Raise (AttributeError "metadata")) /\
  get_latest_timestamp (recording_handle "bag")
  = ([Info "GET END"], Raise (AttributeError "metadata")) /\
  deserialize_entry example_get_message example_deserialize_message
    (recording_handle "bag") (Entry.make "/a" [] 20)
  = ([], Raise (AttributeError "topic_metadata_map")).
Proof.
  split; [reflexivity|].
  apply (recording_accessors_raise example_world "bag"
           (recording_handle "bag") string (list Byte.byte)
           example_get_message example_deserialize_message
           (Entry.make "/a" [] 20)).
  reflexivity.
Defined.

(** X11. In read mode [deserialize_entry] does not check that the entry's
    topic is known: for a topic outside [get_topics()] it calls
    [get_message] with [None], and raises whatever that raises, without
    decoding the payload. *)
Theorem deserialize_entry_unknown_topic
    (w : World) (bag_path : string) (self : Rosbag2)
    (MsgType Message : Type)
    (get_message : option string -> M MsgType)
    (deserialize_message : list Byte.byte -> MsgType -> M Message)
    (entry : Entry.t) (names : list string) (e : Exception) :
  returns (__init__ w bag_path false) self ->
  returns (get_topics self) names ->
  ~ In (Entry.topic entry) names ->
  raises (get_message None) e ->
  raises (deserialize_entry get_message deserialize_message self entry) e.
Proof.
  intros Hinit Hnames Hout Hraise.
  destruct (init_reading _ _ Hinit) as (md & path & Hr).
  unfold deserialize_entry.
  apply raises_bind with None.
  - unfold returns in *. rewrite (get_topic_type_reading _ Hr).
    rewrite (get_topics_reading Hr) in Hnames. simpl in *.
    inversion Hnames; subst names. rewrite in_sorted_keys in Hout.
    destruct (dict_get (topic_metadata_map_of md) (Entry.topic entry));
      [exfalso; apply Hout; discriminate|reflexivity].
  - unfold raises, bind in *. destruct (get_message None) as [out r].
    simpl in *. now subst r.
Qed.

Lemma deserialize_entry_unknown_topic_witness :
  returns (__init__ example_world "bag" false) example_bag /\
  returns (get_topics example_bag) ["/a"; "/b"] /\
  ~ In "/c" ["/a"; "/b"] /\
  raises (example_get_message None) (AttributeError "split") /\
  raises (deserialize_entry example_get_message example_deserialize_message
            example_bag (Entry.make "/c" [] 20))
         (AttributeError "split").
Proof.
  assert (Hout : ~ In "/c" ["/a"; "/b"])
    by (intros [H|[H|[]]]; discriminate H).
  split; [reflexivity|]. split; [reflexivity|]. split; [exact Hout|].
  split; [reflexivity|].
  apply (deserialize_entry_unknown_topic example_world "bag" example_bag
           string (list Byte.byte)
           example_get_message example_deserialize_message
           (Entry.make "/c" [] 20) ["/a"; "/b"] (AttributeError "split")).
  - reflexivity.
  - reflexivity.
  - exact Hout.
  - reflexivity.
Defined.

(** X12. In read mode an entry obtained from [get_entry(t, topic)] for a
    plain topic name deserializes under that topic's catalog type: if the
    codec resolves the type and decodes the payload, [deserialize_entry]
    returns the decoded message with [get_topic_type(topic)] and
    [topic]. *)
Theorem deserialize_retrieved_entry
    (w : World) (bag_path : string) (self : Rosbag2)
    (MsgType Message : Type)
    (get_message : option string -> M MsgType)
    (deserialize_message : list Byte.byte -> MsgType -> M Message)
    (t : Time) (topic : string) (entry : Entry.t) :
  returns (__init__ w bag_path false) self ->
  plain_topic_name topic = true ->
  returns (get_entry w self t (Some topic)) (Some entry) ->
  exists ty,
    returns (get_topic_type self topic) (Some ty) /\
    forall msg_type msg,
      returns (get_message (Some ty)) msg_type ->
      returns (deserialize_message (Entry.data entry) msg_type) msg ->
      returns (deserialize_entry get_message deserialize_message self entry)
              (msg, Some ty, topic).
Proof.
  intros Hinit Hplain Hret.
  destruct (init_reading _ _ Hinit) as (md & path & Hr).
  destruct (get_entry_returned w self md path t (Some topic) (Some entry)
              Hr Hplain Hret)
    as [[_ Hnone]|[Hcat (db & _ & (_ & Htopic & _))]]; [discriminate|].
  simpl in Htopic.
  apply (in_catalog_reading _ _ _ (Some topic) Hr) in Hcat.
  unfold dict_contains in Hcat.
  destruct (dict_get (topic_metadata_map_of md) topic) as [v|] eqn:Hget;
    [|discriminate].
  assert (Hty : returns (get_topic_type self topic) (Some (type v))).
  { unfold returns. rewrite (get_topic_type_reading topic Hr).
    now rewrite Hget. }
  exists (type v). split; [exact Hty|].
  intros msg_type msg Hmt Hmsg. unfold deserialize_entry. rewrite Htopic.
  apply returns_bind with (Some (type v)); [exact Hty|].
  apply returns_bind with msg_type; [exact Hmt|].
  apply returns_bind with msg; [exact Hmsg|reflexivity].
Qed.

Lemma deserialize_retrieved_entry_witness :
  returns (__init__ example_world "bag" false) example_bag /\
  plain_topic_name "/a" = true /\
  returns (get_entry example_world example_bag (at_ns 20) (Some "/a"))
          (Some (Entry.make "/a" [] 20)) /\
  exists ty,
    returns (get_topic_type example_bag "/a") (Some ty) /\
    forall msg_type msg,
      returns (example_get_message (Some ty)) msg_type ->
      returns (example_deserialize_message
                 (Entry.data (Entry.make "/a" [] 20)) msg_type) msg ->
      returns (deserialize_entry example_get_message
                 example_deserialize_message example_bag
                 (Entry.make "/a" [] 20))
              (msg, Some ty, "/a").
Proof.
  split; [reflexivity|]. split; [reflexivity|]. split; [reflexivity|].
  apply (deserialize_retrieved_entry example_world "bag" example_bag
           string (list Byte.byte)
           example_get_message example_deserialize_message
           (at_ns 20) "/a" (Entry.make "/a" [] 20));
    reflexivity.
Defined.
